(** * chbe102: non-linear regression and non-linear equation solving

    A shallow embedding of the two notebooks of the repository:

    - "Non-linear regression": the rate-law function [model], the
      confidence-interval cell (degrees of freedom, Student-t value, the
      [ci] loop, the output data frame) and the residual-summary loop
      ([rate_predict], [ssr]);
    - "Non-linear equations solver": the residual function [eqns].

    The Python code is duck-typed over its numbers, so the embedding is
    written once over an arithmetic interface [Arith] and read at two
    instances: IEEE binary64 (what numpy computes with) and the real
    numbers (the exact arithmetic in which the formulas of the notebooks
    are written).  A raised [IndexError] or [ValueError] is [None]. *)

From Stdlib Require Import ZArith List Lia String Reals Lra Floats.
From stdpp Require Import base option list.

Set Warnings "-inexact-float".

(** ** Arithmetic interface *)

(** The operations the notebooks apply to numbers: a literal or a Python
    int promoted to the float type, [+], [-], [*], [/], and [** 0.5]. *)
Class Arith (F : Type) := {
  lit : Z -> F;
  fadd : F -> F -> F;
  fsub : F -> F -> F;
  fmul : F -> F -> F;
  fdiv : F -> F -> F;
  fsqrt : F -> F
}.

Declare Scope py_scope.
Delimit Scope py_scope with py.
Infix "+" := fadd : py_scope.
Infix "-" := fsub : py_scope.
Infix "*" := fmul : py_scope.
Infix "/" := fdiv : py_scope.

(** [y ** 2], as the product [y * y].  In binary64 the power function
    of the C library can differ from the rounded product in the last
    place. *)
Definition pow2 {F} `{Arith F} (y : F) : F := (y * y)%py.

(** numpy float64: primitive binary64 floats, round to nearest even.
    [** 0.5] is read as the IEEE square root, from which the power
    function of the C library can differ in the last place, and at
    [-inf]. *)
Definition float_lit (z : Z) : float :=
  match z with
  | Z0 => PrimFloat.zero
  | Zpos _ => PrimFloat.of_uint63 (Uint63.of_Z z)
  | Zneg p => PrimFloat.opp (PrimFloat.of_uint63 (Uint63.of_Z (Zpos p)))
  end.

#[export] Instance float_arith : Arith float := {|
  lit := float_lit;
  fadd := PrimFloat.add;
  fsub := PrimFloat.sub;
  fmul := PrimFloat.mul;
  fdiv := PrimFloat.div;
  fsqrt := PrimFloat.sqrt
|}.

(** Exact arithmetic on the reals. *)
#[export] Instance real_arith : Arith R := {|
  lit := IZR;
  fadd := Rplus;
  fsub := Rminus;
  fmul := Rmult;
  fdiv := Rdiv;
  fsqrt := R_sqrt.sqrt
|}.

(** ** Python sequences *)

(** [l[i] = v] on a list or a numpy array: in place when [i] is in range,
    [IndexError] otherwise. *)
Definition setitem {A} (l : list A) (i : nat) (v : A) : option (list A) :=
  if decide (i < length l)%nat then Some (<[i:=v]> l) else None.

(** [for a in it: s = body a s], stopping at the first exception. *)
Fixpoint for_in {A S} (it : list A) (body : A -> S -> option S) (s : S)
  : option S :=
  match it with
  | [] => Some s
  | a :: it' => s' ← body a s; for_in it' body s'
  end.

(** [zip(xs, ys, zs)]: stops with the shortest of the three. *)
Fixpoint zip3 {A B C} (xs : list A) (ys : list B) (zs : list C)
  : list (A * B * C) :=
  match xs, ys, zs with
  | a :: xs', b :: ys', c :: zs' => (a, b, c) :: zip3 xs' ys' zs'
  | _, _, _ => []
  end.

(** [np.zeros(n)]. *)
Definition np_zeros {F} `{Arith F} (n : nat) : list F := replicate n (lit 0).

(** ** Regression notebook *)

Section Regression.
Context {F : Type} `{Arith F}.
Local Open Scope py_scope.

(** Cell 2, [model(x, *parameters)].  [x] is a two-dimensional array
    given by its rows; [ndpts] is the global of cell 3, which the body
    reads (the local is spelled [ndtps] and is never used). *)
Definition model (ndpts : nat) (x : list (list F)) (parameters : list F)
  : option (list F) :=
  CA ← x !! 0%nat;
  CB ← x !! 1%nat;
  CC ← x !! 2%nat;
  let ndtps := length CA in
  b1 ← parameters !! 0%nat;
  b2 ← parameters !! 1%nat;
  b3 ← parameters !! 2%nat;
  b4 ← parameters !! 3%nat;
  b5 ← parameters !! 4%nat;
  let rate_model := np_zeros ndpts in
  for_in (seq 0 ndpts)
    (fun i rate_model =>
       cb ← CB !! i; cc ← CC !! i; ca ← CA !! i;
       setitem rate_model i
         ((b1 * cb - cc / b5) / (lit 1 + b2 * ca + b3 * cb + b4 * cc)))
    rate_model.

(** [np.diag(m)] of a two-dimensional array: the entries [m[k,k]]. *)
Fixpoint np_diag_from (k : nat) (m : list (list F)) : list F :=
  match m with
  | [] => []
  | row :: m' =>
      match row !! k with
      | Some v => v :: np_diag_from (S k) m'
      | None => []
      end
  end.

Definition np_diag (m : list (list F)) : list F := np_diag_from 0 m.

(** [xvars = np.array([CA_exp,CB_exp,CC_exp])]. *)
Definition xvars (CA_exp CB_exp CC_exp : list F) : list (list F) :=
  [CA_exp; CB_exp; CC_exp].

(** Cell 4, confidence intervals.  [tdist_ppf] is scipy's Student-t
    quantile function, [popt] and [pcov] are what [curve_fit] returned. *)
Section Confidence.
Variable tdist_ppf : F -> Z -> F.

(** [dof = max(0,ndpts-npars)], on Python ints. *)
Definition dof (ndpts npars : nat) : Z :=
  Z.max 0 (Z.of_nat ndpts - Z.of_nat npars).

(** [tval = tdist.ppf(1.0-alpha/2.0,dof)]. *)
Definition tval (alpha : F) (ndpts npars : nat) : F :=
  tdist_ppf (lit 1 - alpha / lit 2) (dof ndpts npars).

(** [ci = np.zeros([npars,2])] and the loop over
    [zip(range(ndpts),popt,np.diag(pcov))]; a row of [ci] is a pair. *)
Definition ci_loop (t : F) (ndpts npars : nat) (popt : list F)
    (pcov : list (list F)) : option (list (F * F)) :=
  let ci := replicate npars (lit 0, lit 0) in
  for_in (zip3 (seq 0 ndpts) popt (np_diag pcov))
    (fun '(i, p, var) ci =>
       let sigma := fsqrt var in
       setitem ci i (p - sigma * t, p + sigma * t))
    ci.

(** [ci_width = ci[:,1]-ci[:,0]]. *)
Definition ci_width (ci : list (F * F)) : list F :=
  map (fun row => snd row - fst row) ci.

(** The output data frame: its index and its three columns. *)
Record frame := {
  index : list string;
  Value : list F;
  HalfWidth : list F;
  HalfWidthRel : list F
}.

(** [b1,b2,b3,b4,b5 = popt]: exactly five values, else [ValueError]. *)
Definition unpack5 (l : list F) : option (F * F * F * F * F) :=
  match l with
  | [b1; b2; b3; b4; b5] => Some (b1, b2, b3, b4, b5)
  | _ => None
  end.

(** "Create output dataframe": pandas raises [ValueError] when the
    data or a new column does not have the length of the index. *)
Definition soln (popt : list F) (width : list F) : option frame :=
  let param_names := ["b1"; "b2"; "b3"; "b4"; "b5"]%string in
  _ ← unpack5 popt;
  if decide (length popt = length param_names) then
    let half := map (fun w => w / lit 2) width in
    if decide (length half = length param_names) then
      let rel := zip_with (fun w p => w / lit 2 / p * lit 100) width popt in
      Some {| index := param_names; Value := popt;
              HalfWidth := half; HalfWidthRel := rel |}
    else None
  else None.

(** The confidence-interval part of cell 4, from [alpha] to [soln]. *)
Definition confidence (alpha : F) (ndpts : nat) (guess popt : list F)
    (pcov : list (list F)) : option frame :=
  let npars := length guess in
  let t := tval alpha ndpts npars in
  ci ← ci_loop t ndpts npars popt pcov;
  soln popt (ci_width ci).
End Confidence.

(** Cell 4, "simulated rates and sum of squared residuals": the state
    of the loop is [(rate_predict, ssr)]; [ndpts = len(rate_exp)]. *)
Definition residual_summary (CA_exp CB_exp CC_exp rate_exp popt : list F)
  : option (list F * F) :=
  let ndpts := length rate_exp in
  '(b1, b2, b3, b4, b5) ← unpack5 popt;
  for_in (seq 0 ndpts)
    (fun i '(rate_predict, ssr) =>
       cb ← CB_exp !! i; cc ← CC_exp !! i; ca ← CA_exp !! i;
       rate_predict ← setitem rate_predict i
         ((b1 * cb - cc / b5) / (lit 1 + b2 * ca + b3 * cb + b4 * cc));
       rp ← rate_predict !! i;
       re ← rate_exp !! i;
       let sqr_resid := pow2 (rp - re) in
       Some (rate_predict, ssr + sqr_resid))
    (np_zeros ndpts, lit 0).

(** Cell 3, the data of the notebook. *)
Definition dec (n d : Z) : F := lit n / lit d.

Definition rate_exp : list F :=
  [dec 855 100; dec 379 100; dec 482 100; dec 2 100; dec 275 100;
   dec 1439 100; dec 254 100; dec 435 100; lit 13; dec 85 10;
   dec 5 100; dec 1132 100; dec 313 100].
Definition CA_exp : list F :=
  map lit [470; 285; 470; 470; 470; 100; 100; 470; 100; 100; 100; 285; 285]%Z.
Definition CB_exp : list F :=
  map lit [300; 80; 300; 80; 80; 190; 80; 190; 300; 300; 80; 300; 190]%Z.
Definition CC_exp : list F :=
  map lit [10; 10; 120; 120; 10; 10; 65; 65; 54; 120; 120; 10; 120]%Z.

Definition ndpts_exp : nat := length rate_exp.

(** Cell 4, the parameter guesses and the confidence level. *)
Definition guess : list F := [lit 1; dec 1 10; dec 1 10; dec 1 10; lit 1].
Definition alpha_095 : F := dec 5 100.

End Regression.

(** ** Equation-solver notebook *)

Section Solver.
Context {F : Type} `{Arith F}.
Local Open Scope py_scope.

(** [eqns(U)]; [a] and [b] are the globals the body reads. *)
Definition eqns (a b : F) (U : list F) : option (list F) :=
  y1 ← U !! 0%nat;
  y2 ← U !! 1%nat;
  y3 ← U !! 2%nat;
  let setzero := np_zeros (length U) in
  setzero ← setitem setzero 0 (a * pow2 y1 + b * y1 - lit 10);
  setzero ← setitem setzero 1 (b * pow2 y1 + y2 - lit 12);
  setzero ← setitem setzero 2 (b + y3 - lit 8);
  Some setzero.

End Solver.

(** ** The cells after the fit and after the solve *)

(** [<] on the numbers of the notebooks; [x > y] is [y < x]. *)
Class Less (F : Type) := {
  flt : F -> F -> bool
}.

#[export] Instance float_less : Less float := {|
  flt := PrimFloat.ltb
|}.

(** The built-in [min(l)]: [ValueError] on an empty sequence; otherwise
    the first item, replaced by each later [item] with [item < current]. *)
Definition py_min {F} `{Less F} (l : list F) : option F :=
  match l with
  | [] => None
  | x :: l' => Some (fold_left (fun m item => if flt item m then item else m) l' x)
  end.

(** The built-in [max(l)]: as [min], replacing when [item > current]. *)
Definition py_max {F} `{Less F} (l : list F) : option F :=
  match l with
  | [] => None
  | x :: l' => Some (fold_left (fun m item => if flt m item then item else m) l' x)
  end.

Section Parity.
Context {F : Type} `{Less F}.

(** Cell 5,
    [[min([min(rate_exp),min(rate_predict)]),max([max(rate_exp),max(rate_predict)])]]. *)
Definition parity_line (rate_exp rate_predict : list F) : option (list F) :=
  m_exp ← py_min rate_exp;
  m_predict ← py_min rate_predict;
  lo ← py_min [m_exp; m_predict];
  M_exp ← py_max rate_exp;
  M_predict ← py_max rate_predict;
  hi ← py_max [M_exp; M_predict];
  Some [lo; hi].

(** Cell 5, "Parity line": [x_parity] and [y_parity], each computed by the
    same expression. *)
Definition parity (rate_exp rate_predict : list F)
  : option (list F * list F) :=
  x_parity ← parity_line rate_exp rate_predict;
  y_parity ← parity_line rate_exp rate_predict;
  Some (x_parity, y_parity).

End Parity.

Section Check.
Context {F : Type} `{Arith F}.
Local Open Scope py_scope.

(** Solver notebook, "Check solution": the three values printed after
    [soln = opt.fsolve(eqns,guess)], from [soln[0]], [soln[1]], [soln[2]]. *)
Definition check_solution (a b : F) (soln : list F) : option (F * F * F) :=
  y1_solved ← soln !! 0%nat;
  y2_solved ← soln !! 1%nat;
  y3_solved ← soln !! 2%nat;
  Some (a * pow2 y1_solved + b * y1_solved - lit 10,
        b * pow2 y1_solved + y2_solved - lit 12,
        b + y3_solved - lit 8).

End Check.

(** ** Auxiliary definitions for the proofs *)

(** The body of a loop that only stores [f a] at index [idx a]. *)
Definition fill {A B} (idx : A -> nat) (f : A -> option B)
  : A -> list B -> option (list B) :=
  fun a st => v ← f a; setitem st (idx a) v.

(** [predicted[i]] as cell 2 writes it, [None] when an index is out of
    range. *)
Definition rate_at {F} `{Arith F} (CA CB CC : list F) (b1 b2 b3 b4 b5 : F)
    (i : nat) : option F :=
  cb ← CB !! i; cc ← CC !! i; ca ← CA !! i;
  Some ((b1 * cb - cc / b5) / (lit 1 + b2 * ca + b3 * cb + b4 * cc))%py.

(** Classification of a binary64 value through its IEEE 754 datum. *)
Definition SFnonfinite (s : spec_float) : bool :=
  match s with
  | S754_infinity _ | S754_nan => true
  | S754_zero _ | S754_finite _ _ _ => false
  end.

Definition SFzero (s : spec_float) : bool :=
  match s with
  | S754_zero _ => true
  | _ => false
  end.

(** [inf], [-inf] or [nan]: what [numpy.isfinite] rejects. *)
Definition nonfinite (x : float) : Prop := PrimFloat.is_finite x = false.

(** The sum of squared residuals of predictions against observations,
    added up from the left as the summary loop does. *)
Definition sum_sq_resid {F} `{Arith F} (preds obs : list F) : F :=
  fold_left (fun acc pr => acc + pow2 (fst pr - snd pr))%py
    (zip preds obs) (lit 0).

(** The first three entries of a list of residuals. *)
Definition first3 {A} (r : list A) : option (A * A * A) :=
  match r with
  | r1 :: r2 :: r3 :: _ => Some (r1, r2, r3)
  | _ => None
  end.

(** One iteration of the summary loop of cell 4 on the state
    [(rate_predict, ssr)]. *)
Definition summary_step {F} `{Arith F} (CA_exp CB_exp CC_exp rate_exp : list F)
    (b1 b2 b3 b4 b5 : F) : nat -> list F * F -> option (list F * F) :=
  fun i '(rate_predict, ssr) =>
    cb ← CB_exp !! i; cc ← CC_exp !! i; ca ← CA_exp !! i;
    rate_predict ← setitem rate_predict i
      ((b1 * cb - cc / b5) / (lit 1 + b2 * ca + b3 * cb + b4 * cc))%py;
    rp ← rate_predict !! i;
    re ← rate_exp !! i;
    let sqr_resid := pow2 (rp - re)%py in
    Some (rate_predict, (ssr + sqr_resid)%py).

(** Not below zero: every IEEE datum but the negative numbers and
    [-inf]. *)
Definition SFnonneg (s : spec_float) : bool :=
  match s with
  | S754_finite true _ _ | S754_infinity true => false
  | _ => true
  end.

Definition SFnotnan (s : spec_float) : bool :=
  match s with
  | S754_nan => false
  | _ => true
  end.

(** The place of an IEEE datum in the order of binary64, as a triple
    compared from the left: sign and class, exponent, mantissa. *)
Definition SFkey (s : spec_float) : Z * Z * Z :=
  match s with
  | S754_infinity true => (-2, 0, 0)%Z
  | S754_finite true m e => (-1, - e, Zneg m)%Z
  | S754_zero _ => (0, 0, 0)%Z
  | S754_nan => (0, 0, 0)%Z
  | S754_finite false m e => (1, e, Zpos m)%Z
  | S754_infinity false => (2, 0, 0)%Z
  end.

Definition lexlt (k1 k2 : Z * Z * Z) : Prop :=
  let '(a1, b1, c1) := k1 in
  let '(a2, b2, c2) := k2 in
  (a1 < a2 \/ (a1 = a2 /\ (b1 < b2 \/ (b1 = b2 /\ c1 < c2))))%Z.

Definition fkey (x : float) : Z * Z * Z := SFkey (Prim2SF x).

(** A square array: [n] rows of [n] entries. *)
Definition square {A} (n : nat) (m : list (list A)) : Prop :=
  length m = n /\ Forall (fun row => length row = n) m.

(** * Proofs *)

(** ** Loops and sequences *)

Lemma setitem_Some {A} (l : list A) i v :
  (i < length l)%nat -> setitem l i v = Some (<[i:=v]> l).
Proof. intros Hi. unfold setitem. by rewrite decide_True. Qed.

Lemma setitem_None {A} (l : list A) i v :
  (length l <= i)%nat -> setitem l i v = None.
Proof. intros Hi. unfold setitem. rewrite decide_False; [done | lia]. Qed.

Lemma for_in_app {A S} (it1 it2 : list A) (body : A -> S -> option S) s :
  for_in (it1 ++ it2) body s = for_in it1 body s ≫= for_in it2 body.
Proof.
  revert s. induction it1 as [|a it1 IH]; intros s; simpl; [done|].
  destruct (body a s) as [s'|]; simpl; [apply IH | done].
Qed.

Lemma for_in_ext {A S} (it : list A) (body1 body2 : A -> S -> option S) s :
  (forall a s, body1 a s = body2 a s) ->
  for_in it body1 s = for_in it body2 s.
Proof.
  intros Hext. revert s. induction it as [|a it IH]; intros s; simpl; [done|].
  rewrite Hext. destruct (body2 a s); simpl; [apply IH | done].
Qed.

(** A loop whose [k]-th iteration stores at index [k] returns the array
    with its first [length it] entries replaced, and raises nothing. *)
Lemma for_in_fill {A B} (it : list A) (idx : A -> nat) (f : A -> option B)
    (init : list B) :
  (forall k a, it !! k = Some a -> idx a = k /\ is_Some (f a)) ->
  (length it <= length init)%nat ->
  exists out,
    for_in it (fill idx f) init = Some out /\
    length out = length init /\
    (forall k a, it !! k = Some a -> out !! k = f a) /\
    (forall k, (length it <= k)%nat -> out !! k = init !! k).
Proof.
  induction it as [|a it IH] using rev_ind; intros Hit Hlen.
  - exists init. split; [done|]. split; [done|]. split; [|done].
    intros k a Hk. by rewrite lookup_nil in Hk.
  - rewrite length_app in Hlen. simpl in Hlen.
    destruct IH as (out & Hrun & Hlo & Hin & Hout).
    { intros k b Hk. apply Hit. by apply lookup_app_l_Some. }
    { lia. }
    destruct (Hit (length it) a) as [Hidx [v Hv]].
    { by rewrite list_lookup_middle. }
    exists (<[length it:=v]> out).
    rewrite for_in_app, Hrun. simpl. unfold fill at 1.
    rewrite Hv, Hidx. simpl. rewrite setitem_Some by lia. simpl.
    repeat split.
    + by rewrite length_insert.
    + intros k b Hk. destruct (decide (k = length it)) as [->|Hne].
      * rewrite list_lookup_middle in Hk by done. simplify_eq.
        rewrite list_lookup_insert_eq by lia. done.
      * rewrite list_lookup_insert_ne by done. apply Hin.
        apply lookup_lt_Some in Hk as Hlt. rewrite length_app in Hlt.
        simpl in Hlt. rewrite lookup_app_l in Hk by lia. done.
    + intros k Hk. rewrite length_app in Hk. simpl in Hk.
      rewrite list_lookup_insert_ne by lia. apply Hout. lia.
Qed.

Lemma length_zip3 {A B C} (xs : list A) (ys : list B) (zs : list C) :
  length (zip3 xs ys zs) = (length xs `min` (length ys `min` length zs))%nat.
Proof.
  revert ys zs. induction xs as [|a xs IH]; intros [|b ys] [|c zs]; simpl;
    try done; try lia.
  by rewrite IH.
Qed.

Lemma lookup_zip3 {A B C} (xs : list A) (ys : list B) (zs : list C) k a b c :
  zip3 xs ys zs !! k = Some (a, b, c) <->
  xs !! k = Some a /\ ys !! k = Some b /\ zs !! k = Some c.
Proof.
  revert ys zs k.
  induction xs as [|a' xs IH]; intros [|b' ys] [|c' zs] [|k]; simpl;
    try (split; [done | by intros (? & ? & ?)]).
  - split; [by intros [= -> -> ->] | by intros ([= ->] & [= ->] & [= ->])].
  - apply IH.
Qed.

(** ** The rate model *)

Section ModelFacts.
Context {F : Type} `{Arith F}.
Local Open Scope py_scope.

Lemma model_unfold ndpts CA CB CC b1 b2 b3 b4 b5 :
  model ndpts [CA; CB; CC] [b1; b2; b3; b4; b5] =
  for_in (seq 0 ndpts) (fill (fun i => i) (rate_at CA CB CC b1 b2 b3 b4 b5))
    (np_zeros ndpts).
Proof.
  unfold model. simpl. apply for_in_ext. intros i st.
  unfold fill, rate_at.
  destruct (CB !! i); simpl; [|done].
  destruct (CC !! i); simpl; [|done].
  by destruct (CA !! i).
Qed.

(** The output has [ndpts] entries whatever the width of [x] is, as long
    as [x] has at least [ndpts] columns. *)
Lemma model_spec ndpts CA CB CC b1 b2 b3 b4 b5 :
  (ndpts <= length CA)%nat -> (ndpts <= length CB)%nat ->
  (ndpts <= length CC)%nat ->
  exists out,
    model ndpts [CA; CB; CC] [b1; b2; b3; b4; b5] = Some out /\
    length out = ndpts /\
    forall i, (i < ndpts)%nat ->
      out !! i = rate_at CA CB CC b1 b2 b3 b4 b5 i /\ is_Some (out !! i).
Proof.
  intros HA HB HC. rewrite model_unfold.
  assert (Hdef : forall i, (i < ndpts)%nat ->
            is_Some (rate_at CA CB CC b1 b2 b3 b4 b5 i)).
  { intros i Hi. unfold rate_at.
    destruct (lookup_lt_is_Some_2 CA i) as [ca ->]; [lia|].
    destruct (lookup_lt_is_Some_2 CB i) as [cb ->]; [lia|].
    destruct (lookup_lt_is_Some_2 CC i) as [cc ->]; [lia|].
    by eexists. }
  destruct (for_in_fill (seq 0 ndpts) (fun i => i)
              (rate_at CA CB CC b1 b2 b3 b4 b5) (np_zeros ndpts))
    as (out & Hrun & Hlen & Hin & _).
  - intros k a Hk. apply lookup_seq in Hk as [-> Hk]. split; [done|].
    by apply Hdef.
  - unfold np_zeros. rewrite length_seq, length_replicate. lia.
  - exists out. split; [done|]. unfold np_zeros in Hlen.
    rewrite length_replicate in Hlen. split; [done|].
    intros i Hi. rewrite (Hin i i) by (by apply lookup_seq). split; [done|].
    by apply Hdef.
Qed.

(** The residual-summary loop carries the array of the model loop in the
    first component of its state. *)
Lemma residual_loop_simulates CA CB CC rate b1 b2 b3 b4 b5 it :
  forall rate_predict ssr,
    (forall i, i ∈ it -> (i < length rate)%nat) ->
    fst <$> for_in it
      (fun i '(rate_predict, ssr) =>
         cb ← CB !! i; cc ← CC !! i; ca ← CA !! i;
         rate_predict ← setitem rate_predict i
           ((b1 * cb - cc / b5) / (lit 1 + b2 * ca + b3 * cb + b4 * cc));
         rp ← rate_predict !! i;
         re ← rate !! i;
         let sqr_resid := pow2 (rp - re) in
         Some (rate_predict, ssr + sqr_resid))
      (rate_predict, ssr)
    = for_in it (fill (fun i => i) (rate_at CA CB CC b1 b2 b3 b4 b5)) rate_predict.
Proof.
  unfold fill, rate_at.
  induction it as [|i it IH]; intros rp ssr Hit; simpl; [done|].
  destruct (CB !! i) as [cb|]; simpl; [|done].
  destruct (CC !! i) as [cc|]; simpl; [|done].
  destruct (CA !! i) as [ca|]; simpl; [|done].
  unfold setitem. case_decide as Hi; simpl; [|done].
  rewrite list_lookup_insert_eq by done. simpl.
  destruct (lookup_lt_is_Some_2 rate i) as [re ->].
  { apply Hit. left. }
  simpl. apply IH. intros j Hj. apply Hit. by right.
Qed.

(** The two loops of the notebook over the same data and parameters. *)
Lemma residual_summary_model CA CB CC rate b1 b2 b3 b4 b5 :
  (length rate <= length CA)%nat -> (length rate <= length CB)%nat ->
  (length rate <= length CC)%nat ->
  exists out ssr,
    residual_summary CA CB CC rate [b1; b2; b3; b4; b5] = Some (out, ssr) /\
    model (length rate) [CA; CB; CC] [b1; b2; b3; b4; b5] = Some out /\
    forall i, (i < length rate)%nat ->
      out !! i = rate_at CA CB CC b1 b2 b3 b4 b5 i.
Proof.
  intros HA HB HC.
  destruct (model_spec (length rate) CA CB CC b1 b2 b3 b4 b5)
    as (out & Hrun & _ & Hout); try lia.
  pose proof Hrun as Hloop. rewrite model_unfold in Hloop.
  pose proof (residual_loop_simulates CA CB CC rate b1 b2 b3 b4 b5
                (seq 0 (length rate)) (np_zeros (length rate)) (lit 0)) as Hsim.
  rewrite Hloop in Hsim.
  assert (Hin : forall i, i ∈ seq 0 (length rate) -> (i < length rate)%nat).
  { intros i Hi. apply elem_of_seq in Hi. lia. }
  specialize (Hsim Hin).
  unfold residual_summary. simpl.
  match type of Hsim with
  | fst <$> ?run = _ => destruct run as [[rp ssr]|] eqn:Hres
  end; [|discriminate Hsim].
  injection Hsim as ->.
  exists out, ssr. split; [done|]. split; [done|].
  intros i Hi. by destruct (Hout i Hi).
Qed.

End ModelFacts.

(** The literals of the notebooks denote the binary64 values Python reads
    them as. *)
Example literals_float :
  rate_exp (F := float) !! 0%nat = Some 8.55%float /\
  guess (F := float) = [1; 0.1; 0.1; 0.1; 1]%float /\
  alpha_095 (F := float) = 0.05%float /\
  CA_exp (F := float) !! 1%nat = Some 285%float /\
  ndpts_exp (F := float) = 13%nat.
Proof. repeat split. Qed.

(** At the parameters the notebook prints (three decimals), the summary
    loop returns 13 predictions and a sum of squared residuals next to the
    printed [SSR = 2.989e-01]. *)
Example residual_summary_printed :
  exists rate_predict ssr,
    residual_summary (F := float) CA_exp CB_exp CC_exp rate_exp
      [1.253; 0.063; 0.040; 0.112; 1.191]%float = Some (rate_predict, ssr) /\
    length rate_predict = 13%nat /\
    (0.29 <? ssr)%float = true /\ (ssr <? 0.31)%float = true.
Proof. eexists _, _. split; [vm_compute; reflexivity|]. repeat split. Qed.

Section ModelClaims.
Context {F : Type} `{Arith F}.
Local Open Scope py_scope.

(** C1: on an observation set of [N] points (the three rows of [x] have
    length [N], and the global [ndpts] is [N]), [model] returns an array
    [predicted] with, at every index [i < N],
    [predicted[i] = (b1*CB[i] - CC[i]/b5) / (1 + b2*CA[i] + b3*CB[i] + b4*CC[i])].
    The equation holds in whichever arithmetic the numbers live in, so in
    particular when [b5] and the denominator are not zero; [model] is a
    function of its arguments and of [ndpts], and the array it writes to is
    its own. *)
Theorem model_predicts (N : nat) (CA CB CC : list F) (b1 b2 b3 b4 b5 : F) :
  length CA = N -> length CB = N -> length CC = N ->
  exists predicted,
    model N [CA; CB; CC] [b1; b2; b3; b4; b5] = Some predicted /\
    forall i ca cb cc,
      (i < N)%nat ->
      CA !! i = Some ca -> CB !! i = Some cb -> CC !! i = Some cc ->
      predicted !! i =
      Some ((b1 * cb - cc / b5) / (lit 1 + b2 * ca + b3 * cb + b4 * cc)).
Proof.
  intros HA HB HC.
  destruct (model_spec N CA CB CC b1 b2 b3 b4 b5) as (out & Hrun & _ & Hout);
    try lia.
  exists out. split; [done|].
  intros i ca cb cc Hi Hca Hcb Hcc.
  destruct (Hout i Hi) as [-> _]. unfold rate_at.
  by rewrite Hcb, Hcc, Hca.
Qed.

(** C7: with the five fitted parameters [popt], the array [rate_predict]
    that the residual-summary loop fills on the data set is, entry for
    entry, the array [model] returns on [xvars] at [popt]; both
    computations return. *)
Theorem rate_predict_is_model (CA CB CC rate popt : list F) :
  length popt = 5%nat ->
  length CA = length rate -> length CB = length rate ->
  length CC = length rate ->
  exists rate_predict ssr,
    residual_summary CA CB CC rate popt = Some (rate_predict, ssr) /\
    model (length rate) (xvars CA CB CC) popt = Some rate_predict.
Proof.
  intros Hp HA HB HC.
  destruct popt as [|b1 [|b2 [|b3 [|b4 [|b5 [|? ?]]]]]]; try discriminate Hp.
  destruct (residual_summary_model CA CB CC rate b1 b2 b3 b4 b5)
    as (out & ssr & Hres & Hrun & _); try lia.
  by exists out, ssr.
Qed.

End ModelClaims.

Lemma model_predicts_witness :
  exists predicted,
    model (F := float) 13 [CA_exp; CB_exp; CC_exp] [1; 0.1; 0.1; 0.1; 1]%float
    = Some predicted /\
    forall i ca cb cc,
      (i < 13)%nat ->
      CA_exp !! i = Some ca -> CB_exp !! i = Some cb -> CC_exp !! i = Some cc ->
      predicted !! i =
      Some ((1 * cb - cc / 1) / (1 + 0.1 * ca + 0.1 * cb + 0.1 * cc))%float.
Proof.
  exact (model_predicts (F := float) 13 CA_exp CB_exp CC_exp
           1%float 0.1%float 0.1%float 0.1%float 1%float
           eq_refl eq_refl eq_refl).
Defined.

Lemma rate_predict_is_model_witness :
  exists rate_predict ssr,
    residual_summary (F := float) CA_exp CB_exp CC_exp rate_exp guess
    = Some (rate_predict, ssr) /\
    model (length (rate_exp (F := float))) (xvars CA_exp CB_exp CC_exp) guess
    = Some rate_predict.
Proof.
  apply (rate_predict_is_model (F := float) CA_exp CB_exp CC_exp rate_exp guess);
    reflexivity.
Defined.

(** C6: the output of [model] has the length of the global [ndpts], not
    of its input.  With the 13 observations of the notebook as [ndpts] and
    the guessed parameters, an [x] of 14 columns gives 13 predictions, all
    of them finite, and an [x] of one column raises [IndexError]. *)
Theorem model_length_is_global_ndpts :
  (exists out,
     model (F := float) ndpts_exp
       (xvars (CA_exp ++ [lit 100]) (CB_exp ++ [lit 80]) (CC_exp ++ [lit 10]))
       guess = Some out /\
     length out = 13%nat /\
     length (CA_exp (F := float) ++ [lit 100]) = 14%nat /\
     forallb PrimFloat.is_finite out = true) /\
  model (F := float) ndpts_exp (xvars [lit 470] [lit 300] [lit 10]) guess = None.
Proof.
  split; [|reflexivity].
  eexists. split; [vm_compute; reflexivity|]. repeat split.
Qed.

(** ** The system of equations *)

Section SolverClaims.
Context {F : Type} `{Arith F}.
Local Open Scope py_scope.

(** C3: for every [U = (y1, y2, y3)] and constants [a], [b], [eqns]
    returns the three residuals
    [(a*y1^2 + b*y1 - 10, b*y1^2 + y2 - 12, b + y3 - 8)], the square
    written out as the product [y1*y1]; it is a function of [a], [b] and
    [U] alone, and the array it writes to is its own. *)
Theorem eqns_residuals (a b y1 y2 y3 : F) :
  eqns a b [y1; y2; y3] =
  Some [a * (y1 * y1) + b * y1 - lit 10;
        b * (y1 * y1) + y2 - lit 12;
        b + y3 - lit 8].
Proof.
  unfold eqns, np_zeros. simpl.
  unfold setitem. simpl.
  unfold pow2. reflexivity.
Qed.

(** C10: on a [U] of at least three entries [eqns] returns a list as long
    as [U], with [0] at every index from 3 on; on a shorter [U] it raises
    [IndexError] and returns nothing. *)
Theorem eqns_length (a b : F) (U : list F) :
  ((3 <= length U)%nat ->
   exists setzero,
     eqns a b U = Some setzero /\
     length setzero = length U /\
     forall i, (3 <= i)%nat -> (i < length U)%nat ->
       setzero !! i = Some (lit 0)) /\
  ((length U < 3)%nat -> eqns a b U = None).
Proof.
  destruct U as [|y1 [|y2 [|y3 U]]]; simpl;
    try (split; [lia | reflexivity]).
  split; [intros _ | lia].
  eexists. split; [reflexivity|]. split.
  - simpl. by rewrite length_replicate.
  - intros i Hi Hlt. do 3 (destruct i as [|i]; [lia|]). simpl.
    apply lookup_replicate_2. lia.
Qed.

End SolverClaims.

Lemma eqns_residuals_witness :
  eqns 1%float 2%float [3; 1; 0.5]%float = Some [5; 7; -5.5]%float.
Proof. exact (eqns_residuals 1%float 2%float 3%float 1%float 0.5%float). Defined.

Lemma eqns_length_witness :
  (exists setzero,
     eqns 1%float 2%float [1; 1; 1; 5; 7]%float = Some setzero /\
     length setzero = 5%nat /\
     forall i, (3 <= i)%nat -> (i < 5)%nat -> setzero !! i = Some 0%float) /\
  eqns 1%float 2%float [1; 1]%float = None.
Proof.
  assert (H5 : (3 <= 5)%nat) by lia.
  assert (H2 : (2 < 3)%nat) by lia.
  split.
  - exact (proj1 (eqns_length 1%float 2%float [1; 1; 1; 5; 7]%float) H5).
  - exact (proj2 (eqns_length 1%float 2%float [1; 1]%float) H2).
Defined.

(** In binary64, the residuals at the notebook's guess, and at the root
    to 14 digits. *)
Example eqns_binary64 :
  eqns 1%float 2%float [1; 1; 1]%float = Some [-7; -9; -5]%float /\
  eqns 1%float 2%float [2.3166247903554; 1.2664991614216; 6]%float
  = Some [0; 0; 0]%float.
Proof. split; reflexivity. Qed.

(** In exact arithmetic the system with [a = 1], [b = 2] has the root
    [(sqrt 11 - 1, 4 sqrt 11 - 12, 6)], where [6 = 8 - b]. *)
Lemma eqns_exact_root :
  eqns 1%R 2%R [R_sqrt.sqrt 11 - 1; 4 * R_sqrt.sqrt 11 - 12; 6]%R
  = Some [0; 0; 0]%R.
Proof.
  unfold eqns, pow2. simpl.
  assert (Hsq : (R_sqrt.sqrt 11 * R_sqrt.sqrt 11 = 11)%R).
  { apply sqrt_sqrt. lra. }
  do 2 f_equal; [|f_equal; [|f_equal]]; nra.
Qed.

(** ** Binary64: where infinities and NaN come from and where they go *)

Lemma SFcompare_finite_refl s m e :
  SFcompare (S754_finite s m e) (S754_finite s m e) = Some Eq.
Proof.
  simpl. destruct s; rewrite Z.compare_refl; simpl;
    by rewrite Pos.compare_cont_refl.
Qed.

Lemma is_finite_spec x :
  PrimFloat.is_finite x = negb (SFnonfinite (Prim2SF x)).
Proof.
  unfold PrimFloat.is_finite, PrimFloat.is_nan, PrimFloat.is_infinity.
  rewrite !FloatAxioms.eqb_spec, FloatAxioms.abs_spec.
  change (Prim2SF infinity) with (S754_infinity false).
  destruct (Prim2SF x) as [s| s| |s m e]; try (by destruct s); [done|].
  unfold SFeqb. by rewrite SFcompare_finite_refl.
Qed.

Lemma is_zero_spec x : PrimFloat.is_zero x = SFzero (Prim2SF x).
Proof.
  unfold PrimFloat.is_zero. rewrite FloatAxioms.eqb_spec.
  change (Prim2SF PrimFloat.zero) with (S754_zero false).
  destruct (Prim2SF x) as [s| s| |s m e]; try (by destruct s). done.
Qed.

Lemma nonfinite_spec x : nonfinite x <-> SFnonfinite (Prim2SF x) = true.
Proof.
  unfold nonfinite. rewrite is_finite_spec. by destruct (SFnonfinite _).
Qed.

(** Case analysis on the IEEE data of the operands; the hypothesis rules
    out the case of two finite operands, the only one that rounds. *)
Ltac sf_cases :=
  repeat match goal with
    | H : SFnonfinite ?s = true |- _ => destruct s; try discriminate H; clear H
    | H : SFzero ?s = true |- _ => destruct s; try discriminate H; clear H
    end;
  repeat match goal with s : spec_float |- _ => destruct s end;
  repeat match goal with b : bool |- _ => destruct b end;
  reflexivity.

Lemma SFmul_nonfinite_l x y :
  SFnonfinite x = true -> SFnonfinite (SF64mul x y) = true.
Proof. intros Hx. sf_cases. Qed.

Lemma SFmul_nonfinite_r x y :
  SFnonfinite y = true -> SFnonfinite (SF64mul x y) = true.
Proof. intros Hy. sf_cases. Qed.

Lemma SFadd_nonfinite_r x y :
  SFnonfinite y = true -> SFnonfinite (SF64add x y) = true.
Proof. intros Hy. sf_cases. Qed.

Lemma SFsub_nonfinite_l x y :
  SFnonfinite x = true -> SFnonfinite (SF64sub x y) = true.
Proof. intros Hx. sf_cases. Qed.

Lemma SFsub_nonfinite_r x y :
  SFnonfinite y = true -> SFnonfinite (SF64sub x y) = true.
Proof. intros Hy. sf_cases. Qed.

Lemma SFdiv_nonfinite_l x y :
  SFnonfinite x = true -> SFnonfinite (SF64div x y) = true.
Proof. intros Hx. sf_cases. Qed.

Lemma SFdiv_zero_r x y :
  SFzero y = true -> SFnonfinite (SF64div x y) = true.
Proof. intros Hy. sf_cases. Qed.

Lemma mul_nonfinite_l x y : nonfinite x -> nonfinite (x * y)%float.
Proof. rewrite !nonfinite_spec, mul_spec. apply SFmul_nonfinite_l. Qed.

Lemma mul_nonfinite_r x y : nonfinite y -> nonfinite (x * y)%float.
Proof. rewrite !nonfinite_spec, mul_spec. apply SFmul_nonfinite_r. Qed.

Lemma add_nonfinite_r x y : nonfinite y -> nonfinite (x + y)%float.
Proof. rewrite !nonfinite_spec, add_spec. apply SFadd_nonfinite_r. Qed.

Lemma sub_nonfinite_l x y : nonfinite x -> nonfinite (x - y)%float.
Proof. rewrite !nonfinite_spec, sub_spec. apply SFsub_nonfinite_l. Qed.

Lemma sub_nonfinite_r x y : nonfinite y -> nonfinite (x - y)%float.
Proof. rewrite !nonfinite_spec, sub_spec. apply SFsub_nonfinite_r. Qed.

Lemma div_nonfinite_l x y : nonfinite x -> nonfinite (x / y)%float.
Proof. rewrite !nonfinite_spec, div_spec. apply SFdiv_nonfinite_l. Qed.

Lemma div_zero_r x y : PrimFloat.is_zero y = true -> nonfinite (x / y)%float.
Proof. rewrite is_zero_spec, nonfinite_spec, div_spec. apply SFdiv_zero_r. Qed.

Create HintDb nonfinite.
#[local] Hint Resolve mul_nonfinite_l mul_nonfinite_r add_nonfinite_r
  sub_nonfinite_l sub_nonfinite_r div_nonfinite_l div_zero_r : nonfinite.

(** C8: in binary64, when the denominator
    [1 + b2*CA[i] + b3*CB[i] + b4*CC[i]] is zero or [b5] is zero, nothing
    is raised: [model] returns its array, the residual-summary loop returns
    the same array, and the entry at [i] is infinite or NaN. *)
Theorem model_zero_division (N : nat) (CA CB CC rate : list float)
    (b1 b2 b3 b4 b5 : float) (i : nat) (ca cb cc : float) :
  length CA = N -> length CB = N -> length CC = N -> length rate = N ->
  CA !! i = Some ca -> CB !! i = Some cb -> CC !! i = Some cc ->
  PrimFloat.is_zero (lit 1 + b2 * ca + b3 * cb + b4 * cc)%py = true \/
  PrimFloat.is_zero b5 = true ->
  exists predicted ssr v,
    model N [CA; CB; CC] [b1; b2; b3; b4; b5] = Some predicted /\
    residual_summary CA CB CC rate [b1; b2; b3; b4; b5]
    = Some (predicted, ssr) /\
    predicted !! i = Some v /\
    PrimFloat.is_finite v = false.
Proof.
  intros HA HB HC HR. rewrite <- HR in HA, HB, HC |- *. clear HR N.
  intros Hca Hcb Hcc Hzero.
  destruct (residual_summary_model CA CB CC rate b1 b2 b3 b4 b5)
    as (out & ssr & Hres & Hrun & Hout); try lia.
  assert (Hi : (i < length rate)%nat).
  { apply lookup_lt_Some in Hca. lia. }
  exists out, ssr. eexists. split; [done|]. split; [done|]. split.
  - rewrite (Hout i Hi). unfold rate_at. by rewrite Hcb, Hcc, Hca.
  - change (nonfinite
      ((b1 * cb - cc / b5) / (float_lit 1 + b2 * ca + b3 * cb + b4 * cc))%float).
    destruct Hzero as [Hden|Hb5]; eauto with nonfinite.
Qed.

Lemma model_zero_division_witness :
  exists predicted ssr v,
    model 2 [[1; 2]; [3; 4]; [5; 6]]%float [1; 0.1; 0.1; 0.1; 0]%float
    = Some predicted /\
    residual_summary [1; 2]%float [3; 4]%float [5; 6]%float [7; 8]%float
      [1; 0.1; 0.1; 0.1; 0]%float = Some (predicted, ssr) /\
    predicted !! 1%nat = Some v /\
    PrimFloat.is_finite v = false.
Proof.
  exact (model_zero_division 2 [1; 2]%float [3; 4]%float [5; 6]%float
           [7; 8]%float 1%float 0.1%float 0.1%float 0.1%float 0%float
           1 2%float 4%float 6%float
           eq_refl eq_refl eq_refl eq_refl eq_refl eq_refl eq_refl
           (or_intror eq_refl)).
Defined.

(** ** Confidence intervals *)

Section ConfidenceFacts.
Context {F : Type} `{Arith F}.
Local Open Scope py_scope.

Lemma np_diag_from_spec (P k : nat) (m : list (list F)) :
  Forall (fun row => length row = P) m -> (k + length m <= P)%nat ->
  length (np_diag_from k m) = length m /\
  forall j row, m !! j = Some row -> np_diag_from k m !! j = row !! (k + j)%nat.
Proof.
  revert k. induction m as [|row m IH]; intros k Hrows Hk; simpl in *.
  - split; [done|]. intros j r Hj. by rewrite lookup_nil in Hj.
  - apply Forall_cons in Hrows as [Hrow Hrows].
    destruct (lookup_lt_is_Some_2 row k) as [v Hv]; [lia|]. rewrite Hv.
    destruct (IH (S k) Hrows) as [Hlen Hlook]; [lia|].
    split; [simpl; by rewrite Hlen|].
    intros [|j] r Hj; simpl in *.
    + injection Hj as <-. by rewrite Nat.add_0_r.
    + rewrite (Hlook j r Hj). f_equal. lia.
Qed.

Lemma np_diag_square (P : nat) (pcov : list (list F)) :
  square P pcov -> length (np_diag pcov) = P.
Proof.
  intros [Hlen Hrows].
  destruct (np_diag_from_spec P 0 pcov Hrows) as [Hd _]; [lia|].
  unfold np_diag. by rewrite Hd.
Qed.

Lemma ci_loop_unfold t N P popt pcov :
  ci_loop t N P popt pcov =
  for_in (zip3 (seq 0 N) popt (np_diag pcov))
    (fill (fun a : nat * F * F => fst (fst a))
          (fun a => Some (snd (fst a) - fsqrt (snd a) * t,
                          snd (fst a) + fsqrt (snd a) * t)))
    (replicate P (lit 0, lit 0)).
Proof. unfold ci_loop. apply for_in_ext. by intros [[i p] var] ci. Qed.

(** The loop writes the rows below [min N P] and raises nothing. *)
Lemma ci_loop_spec t N P popt pcov :
  length popt = P -> length (np_diag pcov) = P ->
  exists ci,
    ci_loop t N P popt pcov = Some ci /\
    length ci = P /\
    (forall i p var,
       (i < N)%nat -> popt !! i = Some p -> np_diag pcov !! i = Some var ->
       ci !! i = Some (p - fsqrt var * t, p + fsqrt var * t)) /\
    (forall i, (N <= i)%nat -> (i < P)%nat -> ci !! i = Some (lit 0, lit 0)).
Proof.
  intros Hp Hd. rewrite ci_loop_unfold.
  match goal with
  | |- context [for_in ?it (fill ?idx ?f) ?init] =>
      destruct (for_in_fill it idx f init) as (ci & Hrun & Hlen & Hin & Hout)
  end.
  - intros k [[i p] var] Hk. apply lookup_zip3 in Hk as (Hi & _ & _).
    apply lookup_seq in Hi as [-> _]. split; [done | by eexists].
  - rewrite length_zip3, length_replicate, length_seq. lia.
  - rewrite length_replicate in Hlen. exists ci. repeat split; try done.
    + intros i p var Hi Hpi Hvi. rewrite (Hin i (i, p, var)); [done|].
      apply lookup_zip3. repeat split; try done. by apply lookup_seq.
    + intros i HN HP. rewrite Hout.
      * by apply lookup_replicate_2.
      * rewrite length_zip3, length_seq. lia.
Qed.

Lemma unpack5_is_Some (l : list F) : length l = 5%nat -> is_Some (unpack5 l).
Proof.
  intros Hl. destruct l as [|b1 [|b2 [|b3 [|b4 [|b5 [|? ?]]]]]];
    try discriminate Hl. by eexists.
Qed.

(** The rows of the data frame, in the operations the cell performs. *)
Lemma confidence_rows (tdist_ppf : F -> Z -> F) alpha N P guess popt pcov :
  length guess = P -> length popt = P -> square P pcov ->
  P = 5%nat -> (P <= N)%nat ->
  exists table,
    confidence tdist_ppf alpha N guess popt pcov = Some table /\
    Value table = popt /\
    forall i p var,
      popt !! i = Some p -> np_diag pcov !! i = Some var ->
      let t := tdist_ppf (lit 1 - alpha / lit 2) (dof N P) in
      let width := (p + fsqrt var * t) - (p - fsqrt var * t) in
      HalfWidth table !! i = Some (width / lit 2) /\
      HalfWidthRel table !! i = Some (width / lit 2 / p * lit 100).
Proof.
  intros Hg Hp Hsq HP5 HPN.
  pose proof (np_diag_square P pcov Hsq) as Hd.
  unfold confidence. rewrite Hg.
  destruct (ci_loop_spec (tval tdist_ppf alpha N P) N P popt pcov Hp Hd)
    as (ci & Hrun & Hlen & Hrows & _).
  rewrite Hrun. simpl. unfold soln.
  destruct (unpack5_is_Some popt) as [q Hq]; [lia|]. rewrite Hq. simpl.
  rewrite decide_True by lia.
  rewrite decide_True by (unfold ci_width; rewrite !length_map; lia).
  eexists. split; [done|]. split; [done|]. simpl.
  intros i p var Hpi Hvi.
  assert (Hi : (i < N)%nat) by (apply lookup_lt_Some in Hpi; lia).
  pose proof (Hrows i p var Hi Hpi Hvi) as Hrow. unfold tval in Hrow.
  split.
  - unfold ci_width. change map with (@fmap list _) at 1 2.
    by rewrite !list_lookup_fmap, Hrow.
  - rewrite lookup_zip_with. unfold ci_width.
    change map with (@fmap list _) at 1.
    by rewrite list_lookup_fmap, Hrow, Hpi.
Qed.

(** C5: the loop is over [zip(range(ndpts),popt,np.diag(pcov))], which
    has [min N P] elements for [N] observations and [P] parameters, so the
    body runs [min N P] times; when [N >= P] the loop raises no
    [IndexError] on the [P]-row array [ci], and every one of the [P] rows
    holds the interval of its parameter. *)
Theorem ci_loop_iterations (t : F) (N P : nat) (popt : list F)
    (pcov : list (list F)) :
  length popt = P -> square P pcov ->
  length (zip3 (seq 0 N) popt (np_diag pcov)) = (N `min` P)%nat /\
  ((P <= N)%nat ->
   exists ci,
     ci_loop t N P popt pcov = Some ci /\
     length ci = P /\
     forall i, (i < P)%nat ->
       exists p var,
         popt !! i = Some p /\ np_diag pcov !! i = Some var /\
         ci !! i = Some (p - fsqrt var * t, p + fsqrt var * t)).
Proof.
  intros Hp Hsq. pose proof (np_diag_square P pcov Hsq) as Hd. split.
  - rewrite length_zip3, length_seq. lia.
  - intros HPN.
    destruct (ci_loop_spec t N P popt pcov Hp Hd)
      as (ci & Hrun & Hlen & Hrows & _).
    exists ci. split; [done|]. split; [done|]. intros i Hi.
    destruct (lookup_lt_is_Some_2 popt i) as [p Hpi]; [lia|].
    destruct (lookup_lt_is_Some_2 (np_diag pcov) i) as [var Hvi]; [lia|].
    exists p, var. split; [done|]. split; [done|].
    apply Hrows; [lia|done..].
Qed.

End ConfidenceFacts.

Lemma ci_loop_iterations_witness :
  length (zip3 (seq 0 13) (guess (F := float))
            (np_diag (replicate 5 (replicate 5 1%float)))) = 5%nat /\
  exists ci,
    ci_loop 2%float 13 5 guess (replicate 5 (replicate 5 1%float)) = Some ci /\
    length ci = 5%nat /\
    forall i, (i < 5)%nat ->
      exists p var,
        guess !! i = Some p /\
        np_diag (replicate 5 (replicate 5 1%float)) !! i = Some var /\
        ci !! i = Some (p - PrimFloat.sqrt var * 2, p + PrimFloat.sqrt var * 2)%float.
Proof.
  assert (Hsq : square 5 (replicate 5 (replicate 5 1%float))).
  { split; [reflexivity | repeat constructor]. }
  destruct (ci_loop_iterations (F := float) 2%float 13 5 guess
              (replicate 5 (replicate 5 1%float)) eq_refl Hsq) as [Hn Hci].
  split; [exact Hn | apply Hci; lia].
Defined.

(** C2, as amended: for [N] observations and [P] parameters (the five of
    the notebook), the cell takes [dof = max(0, N - P)] and
    [tval = tdist.ppf(1 - alpha/2, dof)], and the data frame it builds
    holds, for each of the first [min N P] parameters, with estimate [p]
    and variance [var] on the diagonal of [pcov], the half-width
    [((p + s*tval) - (p - s*tval)) / 2] with [s = var**0.5], and the
    relative width [half-width / p * 100].  [alpha] is any level; the
    notebook sets [alpha_095]. *)
Theorem confidence_half_width_rows {F : Type} `{Arith F}
    (tdist_ppf : F -> Z -> F) (alpha : F)
    (N P : nat) (guess popt : list F) (pcov : list (list F)) :
  length guess = P -> length popt = P -> square P pcov -> P = 5%nat ->
  exists table,
    confidence tdist_ppf alpha N guess popt pcov = Some table /\
    Value table = popt /\
    forall i p var,
      (i < N)%nat -> popt !! i = Some p -> np_diag pcov !! i = Some var ->
      HalfWidth table !! i =
      Some ((p + fsqrt var
                 * tdist_ppf (lit 1 - alpha / lit 2)
                     (Z.max 0 (Z.of_nat N - Z.of_nat P))
             - (p - fsqrt var
                    * tdist_ppf (lit 1 - alpha / lit 2)
                        (Z.max 0 (Z.of_nat N - Z.of_nat P))))
            / lit 2)%py /\
      HalfWidthRel table !! i =
      Some ((p + fsqrt var
                 * tdist_ppf (lit 1 - alpha / lit 2)
                     (Z.max 0 (Z.of_nat N - Z.of_nat P))
             - (p - fsqrt var
                    * tdist_ppf (lit 1 - alpha / lit 2)
                        (Z.max 0 (Z.of_nat N - Z.of_nat P))))
            / lit 2 / p * lit 100)%py.
Proof.
  intros Hg Hp Hsq HP5.
  pose proof (np_diag_square P pcov Hsq) as Hd.
  unfold confidence. rewrite Hg.
  destruct (ci_loop_spec (tval tdist_ppf alpha N P) N P popt pcov Hp Hd)
    as (ci & Hrun & Hlen & Hrows & _).
  rewrite Hrun. simpl. unfold soln.
  destruct (unpack5_is_Some popt) as [q Hq]; [lia|]. rewrite Hq. simpl.
  rewrite decide_True by lia.
  rewrite decide_True by (unfold ci_width; rewrite !length_map; lia).
  eexists. split; [done|]. split; [done|]. simpl.
  intros i p var Hi Hpi Hvi.
  pose proof (Hrows i p var Hi Hpi Hvi) as Hrow.
  unfold tval, dof in Hrow.
  split.
  - unfold ci_width. change map with (@fmap list _) at 1 2.
    by rewrite !list_lookup_fmap, Hrow.
  - rewrite lookup_zip_with. unfold ci_width.
    change map with (@fmap list _) at 1.
    by rewrite list_lookup_fmap, Hrow, Hpi.
Qed.

(** Three observations, five parameters, a Student-t stand-in that falls
    with the degrees of freedom: [dof = 0], [tval = 9], and the first three
    rows have half-width [sqrt 4 * 9 = 18]. *)
Lemma confidence_half_width_rows_witness :
  exists table,
    confidence (fun _ d => float_lit (9 - d)) alpha_095 3 guess guess
      (replicate 5 (replicate 5 4%float)) = Some table /\
    Value table = guess /\
    forall i p var,
      (i < 3)%nat -> guess !! i = Some p ->
      np_diag (replicate 5 (replicate 5 4%float)) !! i = Some var ->
      HalfWidth table !! i =
      Some ((p + PrimFloat.sqrt var * 9 - (p - PrimFloat.sqrt var * 9)) / 2)%float /\
      HalfWidthRel table !! i =
      Some ((p + PrimFloat.sqrt var * 9 - (p - PrimFloat.sqrt var * 9)) / 2
            / p * 100)%float.
Proof.
  assert (Hsq : square 5 (replicate 5 (replicate 5 4%float))).
  { split; [reflexivity | repeat constructor]. }
  exact (confidence_half_width_rows (F := float)
           (fun _ d => float_lit (9 - d)) alpha_095 3 5 guess guess
           (replicate 5 (replicate 5 4%float)) eq_refl eq_refl Hsq eq_refl).
Defined.

(** The claim as first stated fails twice in binary64.  With three
    observations and five parameters, the fourth row keeps half-width [0]
    where [sqrt(var) * tval] is [18].  With thirteen observations, the
    estimate [1e16] and variance [1], [tval] is [1] and both ends of the
    interval round to [1e16]: the half-width is [0], not [1]. *)
Lemma confidence_half_width_counterexample :
  (exists table,
     confidence (fun _ d => float_lit (9 - d)) alpha_095 3 guess guess
       (replicate 5 (replicate 5 4%float)) = Some table /\
     np_diag (replicate 5 (replicate 5 4%float)) !! 3%nat = Some 4%float /\
     tval (fun _ d => float_lit (9 - d)) alpha_095 3 5 = 9%float /\
     (PrimFloat.sqrt 4 * 9)%float = 18%float /\
     HalfWidth table !! 3%nat = Some 0%float) /\
  (exists table,
     confidence (fun _ d => float_lit (9 - d)) alpha_095 13 guess
       [1e16; 1; 1; 1; 1]%float
       (replicate 5 (replicate 5 1%float)) = Some table /\
     np_diag (replicate 5 (replicate 5 1%float)) !! 0%nat = Some 1%float /\
     tval (fun _ d => float_lit (9 - d)) alpha_095 13 5 = 1%float /\
     (PrimFloat.sqrt 1 * 1)%float = 1%float /\
     HalfWidth table !! 0%nat = Some 0%float).
Proof.
  split; (eexists; split; [vm_compute; reflexivity|]); repeat split.
Qed.

(** C4: in binary64, with as many observations as parameters the degrees
    of freedom are 0; given that the Student-t quantile at 0 degrees of
    freedom is not a finite number, the cell raises nothing and every
    half-width and every relative width of the data frame is infinite or
    NaN, never a finite number. *)
Theorem confidence_dof_zero (tdist_ppf : float -> Z -> float) (alpha : float)
    (N P : nat) (guess popt : list float) (pcov : list (list float)) :
  length guess = P -> length popt = P -> square P pcov ->
  P = 5%nat -> N = P ->
  PrimFloat.is_finite (tdist_ppf (lit 1 - alpha / lit 2)%py 0%Z) = false ->
  dof N P = 0%Z /\
  exists table,
    confidence tdist_ppf alpha N guess popt pcov = Some table /\
    forall i, (i < P)%nat ->
      exists h r,
        HalfWidth table !! i = Some h /\ PrimFloat.is_finite h = false /\
        HalfWidthRel table !! i = Some r /\ PrimFloat.is_finite r = false.
Proof.
  intros Hg Hp Hsq HP5 HN Ht.
  assert (Hdof : dof N P = 0%Z) by (unfold dof; lia).
  split; [done|].
  destruct (confidence_rows tdist_ppf alpha N P guess popt pcov)
    as (table & Hrun & _ & Hrows); try done; [lia|].
  exists table. split; [done|]. intros i Hi.
  destruct (lookup_lt_is_Some_2 popt i) as [p Hpi]; [lia|].
  destruct (lookup_lt_is_Some_2 (np_diag pcov) i) as [var Hvi].
  { rewrite (np_diag_square P pcov Hsq). lia. }
  destruct (Hrows i p var Hpi Hvi) as [Hhalf Hrel].
  rewrite Hdof in Hhalf, Hrel.
  eexists _, _. split; [exact Hhalf|]. split; [|split; [exact Hrel|]].
  - change (nonfinite
      ((p + PrimFloat.sqrt var * tdist_ppf (float_lit 1 - alpha / float_lit 2) 0%Z
        - (p - PrimFloat.sqrt var
               * tdist_ppf (float_lit 1 - alpha / float_lit 2) 0%Z))
       / float_lit 2)%float).
    eauto 6 with nonfinite.
  - change (nonfinite
      ((p + PrimFloat.sqrt var * tdist_ppf (float_lit 1 - alpha / float_lit 2) 0%Z
        - (p - PrimFloat.sqrt var
               * tdist_ppf (float_lit 1 - alpha / float_lit 2) 0%Z))
       / float_lit 2 / p * float_lit 100)%float).
    eauto 8 with nonfinite.
Qed.

Lemma confidence_dof_zero_witness :
  dof 5 5 = 0%Z /\
  exists table,
    confidence (fun _ d => if (d =? 0)%Z then nan else 2%float) alpha_095 5
      guess guess (replicate 5 (replicate 5 infinity)) = Some table /\
    forall i, (i < 5)%nat ->
      exists h r,
        HalfWidth table !! i = Some h /\ PrimFloat.is_finite h = false /\
        HalfWidthRel table !! i = Some r /\ PrimFloat.is_finite r = false.
Proof.
  assert (Hsq : square 5 (replicate 5 (replicate 5 infinity))).
  { split; [reflexivity | repeat constructor]. }
  exact (confidence_dof_zero (fun _ d => if (d =? 0)%Z then nan else 2%float)
           alpha_095 5 5 guess guess (replicate 5 (replicate 5 infinity))
           eq_refl eq_refl Hsq eq_refl eq_refl eq_refl).
Defined.

(** * Further properties of the notebooks *)

(** ** More on loops *)

Lemma for_in_ext_in {A S} (it : list A) (body1 body2 : A -> S -> option S) s :
  (forall a s, a ∈ it -> body1 a s = body2 a s) ->
  for_in it body1 s = for_in it body2 s.
Proof.
  revert s. induction it as [|a it IH]; intros s Hext; simpl; [done|].
  rewrite Hext by left. destruct (body2 a s); simpl; [|done].
  apply IH. intros b t Hb. apply Hext. by right.
Qed.

Lemma for_in_singleton {A S} (a : A) (body : A -> S -> option S) s :
  for_in [a] body s = body a s.
Proof. simpl. by destruct (body a s). Qed.

(** A loop that returns has run its body, successfully, on every item. *)
Lemma for_in_Some_body {A S} (it : list A) (body : A -> S -> option S) s s' :
  for_in it body s = Some s' ->
  forall a, a ∈ it -> exists s0, is_Some (body a s0).
Proof.
  revert s. induction it as [|b it IH]; intros s Hrun a Ha; simpl in Hrun.
  - by apply elem_of_nil in Ha.
  - destruct (body b s) as [s1|] eqn:Hb; simpl in Hrun; [|done].
    apply elem_of_cons in Ha as [->|Ha]; [exists s; by rewrite Hb|].
    by apply (IH s1).
Qed.

Lemma for_in_fill_length {A B} (it : list A) (idx : A -> nat)
    (f : A -> option B) (init out : list B) :
  for_in it (fill idx f) init = Some out -> length out = length init.
Proof.
  revert init. induction it as [|a it IH]; intros init Hrun; simpl in Hrun.
  - by injection Hrun as <-.
  - destruct (fill idx f a init) as [s1|] eqn:Hb; simpl in Hrun; [|done].
    rewrite (IH _ Hrun). unfold fill in Hb.
    destruct (f a) as [v|]; simpl in Hb; [|done].
    unfold setitem in Hb. case_decide; [|done].
    injection Hb as <-. apply length_insert.
Qed.

(** ** More on the rate model *)

Section ModelMore.
Context {F : Type} `{Arith F}.
Local Open Scope py_scope.

(** [model] reads [x] and [parameters] through five and three lookups. *)
Lemma model_lookups ndpts x parameters CA CB CC b1 b2 b3 b4 b5 :
  x !! 0%nat = Some CA -> x !! 1%nat = Some CB -> x !! 2%nat = Some CC ->
  parameters !! 0%nat = Some b1 -> parameters !! 1%nat = Some b2 ->
  parameters !! 2%nat = Some b3 -> parameters !! 3%nat = Some b4 ->
  parameters !! 4%nat = Some b5 ->
  model ndpts x parameters =
  for_in (seq 0 ndpts) (fill (fun i => i) (rate_at CA CB CC b1 b2 b3 b4 b5))
    (np_zeros ndpts).
Proof.
  intros HA HB HC H1 H2 H3 H4 H5. unfold model.
  rewrite HA, HB, HC, H1, H2, H3, H4, H5. simpl.
  rewrite <- model_unfold. reflexivity.
Qed.

Lemma rate_at_is_Some CA CB CC b1 b2 b3 b4 b5 i :
  is_Some (rate_at CA CB CC b1 b2 b3 b4 b5 i) <->
  (i < length CA)%nat /\ (i < length CB)%nat /\ (i < length CC)%nat.
Proof.
  unfold rate_at. rewrite <- !lookup_lt_is_Some.
  destruct (CB !! i), (CC !! i), (CA !! i); simpl;
    split; try (intros [? [=]]); try (intros (? & ? & ?));
    repeat split; try done; try (by eexists);
    try (by match goal with H : is_Some None |- _ => destruct H end).
Qed.

(** X1: [model] returns exactly when [parameters] has at least five
    entries and [x] has three rows of at least [ndpts] columns each;
    otherwise it raises [IndexError]. *)
Theorem model_returns_iff (ndpts : nat) (x : list (list F))
    (parameters : list F) :
  is_Some (model ndpts x parameters) <->
  (5 <= length parameters)%nat /\
  exists CA CB CC,
    x !! 0%nat = Some CA /\ x !! 1%nat = Some CB /\ x !! 2%nat = Some CC /\
    (ndpts <= length CA)%nat /\ (ndpts <= length CB)%nat /\
    (ndpts <= length CC)%nat.
Proof.
  split.
  - intros [out Hrun].
    destruct (x !! 0%nat) as [CA|] eqn:HA; [|by unfold model in Hrun; rewrite HA in Hrun].
    destruct (x !! 1%nat) as [CB|] eqn:HB;
      [|by unfold model in Hrun; rewrite HA, HB in Hrun].
    destruct (x !! 2%nat) as [CC|] eqn:HC;
      [|by unfold model in Hrun; rewrite HA, HB, HC in Hrun].
    destruct (parameters !! 0%nat) as [b1|] eqn:H1;
      [|by unfold model in Hrun; rewrite HA, HB, HC, H1 in Hrun].
    destruct (parameters !! 1%nat) as [b2|] eqn:H2;
      [|by unfold model in Hrun; rewrite HA, HB, HC, H1, H2 in Hrun].
    destruct (parameters !! 2%nat) as [b3|] eqn:H3;
      [|by unfold model in Hrun; rewrite HA, HB, HC, H1, H2, H3 in Hrun].
    destruct (parameters !! 3%nat) as [b4|] eqn:H4;
      [|by unfold model in Hrun; rewrite HA, HB, HC, H1, H2, H3, H4 in Hrun].
    destruct (parameters !! 4%nat) as [b5|] eqn:H5;
      [|by unfold model in Hrun; rewrite HA, HB, HC, H1, H2, H3, H4, H5 in Hrun].
    rewrite (model_lookups ndpts x parameters CA CB CC b1 b2 b3 b4 b5)
      in Hrun by done.
    split; [apply lookup_lt_Some in H5; lia|].
    exists CA, CB, CC. repeat split; try done;
      (destruct ndpts as [|n]; [lia|];
       destruct (for_in_Some_body _ _ _ _ Hrun n) as [s0 Hs0];
       [apply elem_of_seq; lia|];
       unfold fill in Hs0;
       destruct (rate_at CA CB CC b1 b2 b3 b4 b5 n) as [v|] eqn:Hv;
       [|by destruct Hs0];
       assert (Hsome : is_Some (rate_at CA CB CC b1 b2 b3 b4 b5 n))
         by (by rewrite Hv);
       apply rate_at_is_Some in Hsome; lia).
  - intros (Hp & CA & CB & CC & HA & HB & HC & HlA & HlB & HlC).
    destruct (lookup_lt_is_Some_2 parameters 0) as [b1 H1]; [lia|].
    destruct (lookup_lt_is_Some_2 parameters 1) as [b2 H2]; [lia|].
    destruct (lookup_lt_is_Some_2 parameters 2) as [b3 H3]; [lia|].
    destruct (lookup_lt_is_Some_2 parameters 3) as [b4 H4]; [lia|].
    destruct (lookup_lt_is_Some_2 parameters 4) as [b5 H5]; [lia|].
    rewrite (model_lookups ndpts x parameters CA CB CC b1 b2 b3 b4 b5) by done.
    rewrite <- model_unfold.
    destruct (model_spec ndpts CA CB CC b1 b2 b3 b4 b5) as (out & -> & _);
      by eauto.
Qed.

(** X2: whatever the shape of [x], an array that [model] returns has
    [ndpts] entries. *)
Theorem model_length (ndpts : nat) (x : list (list F)) (parameters out : list F) :
  model ndpts x parameters = Some out -> length out = ndpts.
Proof.
  intros Hrun. unfold model in Hrun.
  destruct (x !! 0%nat) as [CA|]; simpl in Hrun; [|done].
  destruct (x !! 1%nat) as [CB|]; simpl in Hrun; [|done].
  destruct (x !! 2%nat) as [CC|]; simpl in Hrun; [|done].
  destruct (parameters !! 0%nat) as [b1|]; simpl in Hrun; [|done].
  destruct (parameters !! 1%nat) as [b2|]; simpl in Hrun; [|done].
  destruct (parameters !! 2%nat) as [b3|]; simpl in Hrun; [|done].
  destruct (parameters !! 3%nat) as [b4|]; simpl in Hrun; [|done].
  destruct (parameters !! 4%nat) as [b5|]; simpl in Hrun; [|done].
  change (model ndpts [CA; CB; CC] [b1; b2; b3; b4; b5] = Some out) in Hrun.
  rewrite model_unfold in Hrun. apply for_in_fill_length in Hrun.
  unfold np_zeros in Hrun. by rewrite length_replicate in Hrun.
Qed.

(** X3: the columns of [x] from index [ndpts] on are never read: cutting
    every row to its first [ndpts] entries changes neither the result nor
    whether [model] raises. *)
Theorem model_ignores_later_columns (ndpts : nat) (CA CB CC parameters : list F) :
  model ndpts [take ndpts CA; take ndpts CB; take ndpts CC] parameters =
  model ndpts [CA; CB; CC] parameters.
Proof.
  unfold model. simpl.
  destruct (parameters !! 0%nat) as [b1|]; simpl; [|done].
  destruct (parameters !! 1%nat) as [b2|]; simpl; [|done].
  destruct (parameters !! 2%nat) as [b3|]; simpl; [|done].
  destruct (parameters !! 3%nat) as [b4|]; simpl; [|done].
  destruct (parameters !! 4%nat) as [b5|]; simpl; [|done].
  apply for_in_ext_in. intros i st Hi. apply elem_of_seq in Hi.
  rewrite !lookup_take_lt by lia. reflexivity.
Qed.

End ModelMore.

Lemma model_length_witness :
  model 2 [[1; 1; 9]; [2; 2; 9]; [3; 3; 9]]%float [10; 0; 0; 0; 1]%float
  = Some [17; 17]%float /\
  length [17; 17]%float = 2%nat.
Proof.
  split; [reflexivity|].
  apply (model_length (F := float) 2 [[1; 1; 9]; [2; 2; 9]; [3; 3; 9]]%float
           [10; 0; 0; 0; 1]%float [17; 17]%float).
  reflexivity.
Defined.

(** ** The sum of squared residuals *)

Section SummaryFacts.
Context {F : Type} `{Arith F}.
Local Open Scope py_scope.

Lemma residual_summary_unfold CA CB CC rate b1 b2 b3 b4 b5 :
  residual_summary CA CB CC rate [b1; b2; b3; b4; b5] =
  for_in (seq 0 (length rate)) (summary_step CA CB CC rate b1 b2 b3 b4 b5)
    (np_zeros (length rate), lit 0).
Proof. reflexivity. Qed.

Lemma summary_step_Some CA CB CC rate b1 b2 b3 b4 b5 i rp ssr rp' ssr' :
  summary_step CA CB CC rate b1 b2 b3 b4 b5 i (rp, ssr) = Some (rp', ssr') ->
  exists v re,
    rate_at CA CB CC b1 b2 b3 b4 b5 i = Some v /\
    (i < length rp)%nat /\ rate !! i = Some re /\
    rp' = <[i:=v]> rp /\ ssr' = ssr + pow2 (v - re).
Proof.
  unfold summary_step, rate_at. intros Hstep.
  destruct (CB !! i) as [cb|]; simpl in *; [|done].
  destruct (CC !! i) as [cc|]; simpl in *; [|done].
  destruct (CA !! i) as [ca|]; simpl in *; [|done].
  unfold setitem in Hstep. case_decide as Hi; simpl in Hstep; [|done].
  rewrite list_lookup_insert_eq in Hstep by done. simpl in Hstep.
  destruct (rate !! i) as [re|]; simpl in Hstep; [|done].
  injection Hstep as <- <-. by eexists _, _.
Qed.

Lemma sum_sq_resid_snoc (preds obs : list F) p o :
  length preds = length obs ->
  sum_sq_resid (preds ++ [p]) (obs ++ [o]) =
  sum_sq_resid preds obs + pow2 (p - o).
Proof.
  intros Hlen. unfold sum_sq_resid.
  rewrite zip_with_app by done. by rewrite fold_left_app.
Qed.

(** After [k] iterations [ssr] is the sum over the first [k] points. *)
Lemma summary_loop_prefix CA CB CC rate b1 b2 b3 b4 b5 (k : nat) :
  (k <= length rate)%nat ->
  forall rp ssr,
    for_in (seq 0 k) (summary_step CA CB CC rate b1 b2 b3 b4 b5)
      (np_zeros (length rate), lit 0) = Some (rp, ssr) ->
    length rp = length rate /\
    ssr = sum_sq_resid (take k rp) (take k rate).
Proof.
  induction k as [|k IH]; intros Hk rp ssr Hrun.
  - simpl in Hrun. injection Hrun as <- <-. split; [|done].
    unfold np_zeros. by rewrite length_replicate.
  - rewrite seq_S, for_in_app in Hrun.
    destruct (for_in (seq 0 k) _ _) as [[rp0 ssr0]|] eqn:Hpre; [|done].
    destruct (IH ltac:(lia) rp0 ssr0 eq_refl) as [Hlen Hsum].
    change (for_in [k] (summary_step CA CB CC rate b1 b2 b3 b4 b5) (rp0, ssr0)
            = Some (rp, ssr)) in Hrun.
    rewrite for_in_singleton in Hrun.
    apply summary_step_Some in Hrun
      as (v & re & _ & Hlt & Hre & -> & ->).
    split; [by rewrite length_insert|].
    rewrite (take_S_r (<[k:=v]> rp0) k v)
      by (by apply list_lookup_insert_eq).
    rewrite (take_S_r rate k re) by done.
    rewrite take_insert_ge by done.
    rewrite sum_sq_resid_snoc by (rewrite !length_take; lia).
    by rewrite Hsum.
Qed.

Lemma residual_summary_inv CA CB CC rate popt preds ssr :
  residual_summary CA CB CC rate popt = Some (preds, ssr) ->
  length popt = 5%nat /\
  length preds = length rate /\
  ssr = sum_sq_resid preds rate.
Proof.
  intros Hrun.
  destruct popt as [|b1 [|b2 [|b3 [|b4 [|b5 [|? ?]]]]]];
    try (by unfold residual_summary in Hrun).
  rewrite residual_summary_unfold in Hrun.
  destruct (summary_loop_prefix CA CB CC rate b1 b2 b3 b4 b5 (length rate)
              ltac:(lia) preds ssr Hrun) as [Hlen Hsum].
  split; [done|]. split; [done|].
  rewrite Hsum. by rewrite !take_ge by lia.
Qed.

(** X4: when the summary loop returns, it returns as many predictions as
    there are observations, and [ssr] is the sum, from the left, of the
    squares of prediction minus observation. *)
Theorem ssr_is_sum_of_squares (CA CB CC rate popt preds : list F) (ssr : F) :
  residual_summary CA CB CC rate popt = Some (preds, ssr) ->
  length preds = length rate /\
  ssr = fold_left (fun acc pr => acc + pow2 (fst pr - snd pr))
          (zip preds rate) (lit 0).
Proof.
  intros Hrun. by destruct (residual_summary_inv _ _ _ _ _ _ _ Hrun) as (_ & ? & ?).
Qed.

(** X5: the summary loop returns exactly when [popt] has five entries
    (otherwise [b1,b2,b3,b4,b5 = popt] raises [ValueError]; [model] accepts
    more) and each of the three data lists has at least as many entries as
    [rate_exp] (otherwise [IndexError]). *)
Theorem residual_summary_returns_iff (CA CB CC rate popt : list F) :
  is_Some (residual_summary CA CB CC rate popt) <->
  length popt = 5%nat /\
  (length rate <= length CA)%nat /\ (length rate <= length CB)%nat /\
  (length rate <= length CC)%nat.
Proof.
  split.
  - intros [[preds ssr] Hrun].
    destruct (residual_summary_inv _ _ _ _ _ _ _ Hrun) as (Hp & _ & _).
    split; [done|].
    destruct popt as [|b1 [|b2 [|b3 [|b4 [|b5 [|? ?]]]]]]; try discriminate Hp.
    rewrite residual_summary_unfold in Hrun.
    destruct (length rate) as [|n] eqn:Hn; [lia|].
    destruct (for_in_Some_body _ _ _ _ Hrun n) as [[rp0 ssr0] [[rp1 ssr1] Hstep]].
    { apply elem_of_seq. lia. }
    apply summary_step_Some in Hstep as (v & re & Hv & _).
    assert (Hsome : is_Some (rate_at CA CB CC b1 b2 b3 b4 b5 n))
      by (by rewrite Hv).
    apply rate_at_is_Some in Hsome. lia.
  - intros (Hp & HA & HB & HC).
    destruct popt as [|b1 [|b2 [|b3 [|b4 [|b5 [|? ?]]]]]]; try discriminate Hp.
    destruct (residual_summary_model CA CB CC rate b1 b2 b3 b4 b5)
      as (out & ssr & -> & _); by eauto.
Qed.

End SummaryFacts.

Lemma ssr_is_sum_of_squares_witness :
  length [17; 17]%float = length [16; 19]%float /\
  5%float = fold_left (fun acc pr => acc + pow2 (fst pr - snd pr))%py
              (zip [17; 17]%float [16; 19]%float) (lit 0).
Proof.
  apply (ssr_is_sum_of_squares (F := float) [1; 1]%float [2; 2]%float
           [3; 3]%float [16; 19]%float [10; 0; 0; 0; 1]%float).
  reflexivity.
Defined.

(** ** Binary64: the sign of the sum *)

Lemma binary_round_aux_sign sx mx ex lx :
  match binary_round_aux prec emax sx mx ex lx with
  | S754_zero s | S754_infinity s | S754_finite s _ _ => s = sx
  | S754_nan => True
  end.
Proof.
  unfold binary_round_aux.
  destruct (shr_fexp _ _ _ _ _) as [mrs' e'].
  destruct (shr_fexp _ _ _ _ _) as [mrs'' e''].
  destruct (shr_m mrs''); [done| |done].
  by destruct (Z.leb _ _).
Qed.

Lemma binary_round_sign sx mx ex :
  match binary_round prec emax sx mx ex with
  | S754_zero s | S754_infinity s | S754_finite s _ _ => s = sx
  | S754_nan => True
  end.
Proof.
  unfold binary_round. destruct (shl_align _ _ _) as [mz ez].
  apply binary_round_aux_sign.
Qed.

Lemma SFmul_square_nonneg x : SFnonneg (SF64mul x x) = true.
Proof.
  destruct x as [s|s| |s m e]; [by destruct s | by destruct s | done |].
  unfold SF64mul, SFmul.
  pose proof (binary_round_aux_sign (xorb s s) (Zpos (Pos.mul m m))
                (Z.add e e) loc_Exact) as Hs.
  destruct (binary_round_aux _ _ _ _ _ _) as [s'|s'| |s' m' e']; try done;
    subst s'; by destruct s.
Qed.

Lemma SFadd_nonneg x y :
  SFnonneg x = true -> SFnonneg y = true -> SFnonneg (SF64add x y) = true.
Proof.
  intros Hx Hy.
  destruct x as [sx|sx| |sx mx ex], y as [sy|sy| |sy my ey];
    try done; try (by destruct sx); try (by destruct sy);
    try (by destruct sx, sy).
  destruct sx, sy; try done.
  unfold SF64add, SFadd, cond_Zopp.
  match goal with
  | |- context [Z.add (Zpos ?a) (Zpos ?b)] =>
      change (Z.add (Zpos a) (Zpos b)) with (Zpos (a + b))
  end.
  unfold binary_normalize.
  match goal with
  | |- context [binary_round ?p ?em false ?m ?e] =>
      pose proof (binary_round_sign false m e) as Hs;
      destruct (binary_round p em false m e) as [s'|s'| |s' m' e']
  end; try done; by subst s'.
Qed.

Lemma SFsub_diag x :
  SFnonfinite x = false -> SF64sub x x = S754_zero false.
Proof.
  destruct x as [s|s| |s m e]; try done; intros _.
  - by destruct s.
  - unfold SF64sub, SFsub. rewrite Z.sub_diag. reflexivity.
Qed.

Lemma ltb_zero_spec x : (x <? 0)%float = negb (SFnonneg (Prim2SF x)).
Proof.
  rewrite ltb_spec. change (Prim2SF 0%float) with (S754_zero false).
  destruct (Prim2SF x) as [s|s| |s m e]; try done; by destruct s.
Qed.

Lemma sum_sq_fold_nonneg (l : list (float * float)) (acc : float) :
  SFnonneg (Prim2SF acc) = true ->
  SFnonneg (Prim2SF
    (fold_left (fun acc pr => acc + pow2 (fst pr - snd pr))%py l acc)) = true.
Proof.
  revert acc. induction l as [|[p o] l IH]; intros acc Hacc; simpl; [done|].
  apply IH. unfold pow2. simpl. rewrite add_spec, mul_spec.
  apply SFadd_nonneg; [done | apply SFmul_square_nonneg].
Qed.

Lemma sum_sq_fold_zero (l : list float) (acc : float) :
  Prim2SF acc = S754_zero false ->
  Forall (fun v => PrimFloat.is_finite v = true) l ->
  Prim2SF
    (fold_left (fun acc pr => acc + pow2 (fst pr - snd pr))%py (zip l l) acc)
  = S754_zero false.
Proof.
  revert acc. induction l as [|x l IH]; intros acc Hacc Hfin; simpl; [done|].
  apply Forall_cons in Hfin as [Hx Hfin].
  apply IH; [|done]. unfold pow2. simpl.
  rewrite add_spec, mul_spec, sub_spec, Hacc.
  rewrite is_finite_spec in Hx. rewrite SFsub_diag; [done|].
  by destruct (SFnonfinite (Prim2SF x)).
Qed.

(** X6: in binary64 the sum of squared residuals that the summary loop
    returns is never below zero (it can be NaN), and it is [0] when the
    predictions are the observations and these are finite.  The converse
    does not hold: a difference as small as 1e-200 squares to [0]. *)
Theorem ssr_nonnegative (CA CB CC rate popt preds : list float) (ssr : float) :
  residual_summary CA CB CC rate popt = Some (preds, ssr) ->
  (ssr <? 0)%float = false /\
  (preds = rate -> Forall (fun v => PrimFloat.is_finite v = true) rate ->
   ssr = 0%float).
Proof.
  intros Hrun.
  destruct (residual_summary_inv _ _ _ _ _ _ _ Hrun) as (_ & Hlen & ->).
  unfold sum_sq_resid. split.
  - rewrite ltb_zero_spec. by rewrite sum_sq_fold_nonneg.
  - intros -> Hfin. apply Prim2SF_inj.
    by rewrite (sum_sq_fold_zero rate (lit 0)).
Qed.

Lemma ssr_nonnegative_witness :
  residual_summary [1; 1]%float [2; 2]%float [3; 3]%float [17; 17]%float
    [10; 0; 0; 0; 1]%float = Some ([17; 17]%float, 0%float) /\
  (0 <? 0)%float = false /\
  ([17; 17]%float = [17; 17]%float ->
   Forall (fun v => PrimFloat.is_finite v = true) [17; 17]%float ->
   0%float = 0%float).
Proof.
  assert (Hrun :
    residual_summary [1; 1]%float [2; 2]%float [3; 3]%float [17; 17]%float
      [10; 0; 0; 0; 1]%float = Some ([17; 17]%float, 0%float)) by reflexivity.
  split; [exact Hrun|].
  exact (ssr_nonnegative _ _ _ _ _ _ _ Hrun).
Defined.

(** A prediction of 1e-200 against the observation 0 leaves [ssr] at 0. *)
Example ssr_underflow :
  residual_summary [0]%float [1e-200]%float [0]%float [0]%float
    [1; 0; 0; 0; 1]%float = Some ([1e-200]%float, 0%float).
Proof. reflexivity. Qed.

(** ** Binary64: a non-finite prediction shows in the sum *)

Lemma SFadd_nonfinite_l x y :
  SFnonfinite x = true -> SFnonfinite (SF64add x y) = true.
Proof. intros Hx. sf_cases. Qed.

Lemma add_nonfinite_l x y : nonfinite x -> nonfinite (x + y)%float.
Proof. rewrite !nonfinite_spec, add_spec. apply SFadd_nonfinite_l. Qed.

Lemma sum_sq_fold_nonfinite (l : list (float * float)) (acc : float) :
  nonfinite acc \/ Exists (fun pr => nonfinite (fst pr)) l ->
  nonfinite (fold_left (fun acc pr => acc + pow2 (fst pr - snd pr))%py l acc).
Proof.
  revert acc. induction l as [|[p o] l IH]; intros acc Hcase; simpl.
  - destruct Hcase as [Hacc|Hex]; [done | by apply Exists_nil in Hex].
  - apply IH. destruct Hcase as [Hacc|Hex].
    + left. by apply add_nonfinite_l.
    + apply Exists_cons in Hex as [Hp|Hex]; [left | by right].
      apply add_nonfinite_r. unfold pow2. simpl in *.
      apply mul_nonfinite_l. by apply sub_nonfinite_l.
Qed.

(** X7: in binary64, when one of the predictions the summary loop
    returns is infinite or NaN, so is the [ssr] it returns. *)
Theorem ssr_nonfinite (CA CB CC rate popt preds : list float) (ssr : float)
    (i : nat) (v : float) :
  residual_summary CA CB CC rate popt = Some (preds, ssr) ->
  preds !! i = Some v -> PrimFloat.is_finite v = false ->
  PrimFloat.is_finite ssr = false.
Proof.
  intros Hrun Hi Hv.
  destruct (residual_summary_inv _ _ _ _ _ _ _ Hrun) as (_ & Hlen & ->).
  apply sum_sq_fold_nonfinite. right.
  destruct (lookup_lt_is_Some_2 rate i) as [re Hre].
  { apply lookup_lt_Some in Hi. lia. }
  apply Exists_exists. exists (v, re). split; [|exact Hv].
  apply (list_elem_of_lookup_2 _ i). rewrite lookup_zip_with, Hi, Hre. done.
Qed.

Lemma ssr_nonfinite_witness :
  residual_summary [1; 1]%float [2; 2]%float [3; 3]%float [16; 19]%float
    [10; 0; 0; 0; 0]%float
  = Some ([neg_infinity; neg_infinity], infinity) /\
  PrimFloat.is_finite infinity = false.
Proof.
  split; [reflexivity|].
  apply (ssr_nonfinite [1; 1]%float [2; 2]%float [3; 3]%float [16; 19]%float
           [10; 0; 0; 0; 0]%float [neg_infinity; neg_infinity] infinity
           0 neg_infinity); reflexivity.
Defined.

(** ** More on the confidence intervals *)

Section ConfidenceMore.
Context {F : Type} `{Arith F}.
Local Open Scope py_scope.

Lemma ci_loop_length t N P popt pcov ci :
  ci_loop t N P popt pcov = Some ci -> length ci = P.
Proof.
  rewrite ci_loop_unfold. intros Hrun. apply for_in_fill_length in Hrun.
  by rewrite length_replicate in Hrun.
Qed.

(** X8: with fewer observations than parameters the loop over
    [zip(range(ndpts),popt,np.diag(pcov))] raises nothing and stops after
    [N] rows: the rows of [ci] from [N] on keep the zeros of
    [np.zeros([npars,2])], so their [ci_width] is [0 - 0], whatever the
    variance. *)
Theorem ci_loop_fewer_observations (t : F) (N P : nat) (popt : list F)
    (pcov : list (list F)) :
  length popt = P -> square P pcov -> (N < P)%nat ->
  exists ci,
    ci_loop t N P popt pcov = Some ci /\
    forall i, (N <= i)%nat -> (i < P)%nat ->
      ci !! i = Some (lit 0, lit 0) /\
      ci_width ci !! i = Some (lit 0 - lit 0).
Proof.
  intros Hp Hsq HN. pose proof (np_diag_square P pcov Hsq) as Hd.
  destruct (ci_loop_spec t N P popt pcov Hp Hd)
    as (ci & Hrun & _ & _ & Hzero).
  exists ci. split; [done|]. intros i HNi HiP.
  rewrite <- (Hzero i HNi HiP). split; [done|].
  unfold ci_width. change map with (@fmap list _).
  rewrite list_lookup_fmap, (Hzero i HNi HiP). done.
Qed.

(** X9: a data frame that the cell returns has the five names as index,
    [popt] as its [Value] column and five entries in each of the other two
    columns; the cell returns none unless [guess] and [popt] both have
    five entries. *)
Theorem confidence_frame_shape (tdist_ppf : F -> Z -> F) (alpha : F)
    (N : nat) (guess popt : list F) (pcov : list (list F)) (table : frame) :
  confidence tdist_ppf alpha N guess popt pcov = Some table ->
  length guess = 5%nat /\ length popt = 5%nat /\
  index table = ["b1"; "b2"; "b3"; "b4"; "b5"]%string /\
  Value table = popt /\
  length (HalfWidth table) = 5%nat /\
  length (HalfWidthRel table) = 5%nat.
Proof.
  unfold confidence. intros Hrun.
  destruct (ci_loop _ N (length guess) popt pcov) as [ci|] eqn:Hci;
    simpl in Hrun; [|done].
  apply ci_loop_length in Hci.
  unfold soln in Hrun.
  destruct (unpack5 popt) as [q|]; simpl in Hrun; [|done].
  case_decide as Hp; [|done]. case_decide as Hh; [|done].
  injection Hrun as <-. simpl in *.
  unfold ci_width in Hh |- *. rewrite !length_map in Hh.
  repeat split; try done; try lia.
  - by rewrite !length_map.
  - rewrite length_zip_with, length_map. lia.
Qed.

End ConfidenceMore.

Lemma ci_loop_fewer_observations_witness :
  exists ci,
    ci_loop 2%float 3 5 (guess (F := float))
      (replicate 5 (replicate 5 1%float)) = Some ci /\
    forall i, (3 <= i)%nat -> (i < 5)%nat ->
      ci !! i = Some (0, 0)%float /\
      ci_width ci !! i = Some (0 - 0)%float.
Proof.
  assert (Hsq : square 5 (replicate 5 (replicate 5 1%float))).
  { split; [reflexivity | repeat constructor]. }
  assert (Hlt : (3 < 5)%nat) by lia.
  exact (ci_loop_fewer_observations (F := float) 2%float 3 5 guess
           (replicate 5 (replicate 5 1%float)) eq_refl Hsq Hlt).
Defined.

Lemma confidence_frame_shape_witness :
  confidence (fun _ _ => 2%float) alpha_095 5 guess [1; 1; 1; 1; 1]%float
    (replicate 5 (replicate 5 0%float))
  = Some {| index := ["b1"; "b2"; "b3"; "b4"; "b5"]%string;
            Value := [1; 1; 1; 1; 1]%float;
            HalfWidth := [0; 0; 0; 0; 0]%float;
            HalfWidthRel := [0; 0; 0; 0; 0]%float |} /\
  length (guess (F := float)) = 5%nat /\
  length [1; 1; 1; 1; 1]%float = 5%nat /\
  ["b1"; "b2"; "b3"; "b4"; "b5"]%string
  = ["b1"; "b2"; "b3"; "b4"; "b5"]%string /\
  [1; 1; 1; 1; 1]%float = [1; 1; 1; 1; 1]%float /\
  length [0; 0; 0; 0; 0]%float = 5%nat /\
  length [0; 0; 0; 0; 0]%float = 5%nat.
Proof.
  assert (Hrun :
    confidence (fun _ _ => 2%float) alpha_095 5 guess [1; 1; 1; 1; 1]%float
      (replicate 5 (replicate 5 0%float))
    = Some {| index := ["b1"; "b2"; "b3"; "b4"; "b5"]%string;
              Value := [1; 1; 1; 1; 1]%float;
              HalfWidth := [0; 0; 0; 0; 0]%float;
              HalfWidthRel := [0; 0; 0; 0; 0]%float |}) by reflexivity.
  split; [exact Hrun|].
  exact (confidence_frame_shape (F := float) _ _ _ _ _ _ _ Hrun).
Defined.

(** ** More on the system of equations *)

Lemma eqns_R (a b y1 y2 y3 : R) :
  eqns a b [y1; y2; y3] =
  Some [a * (y1 * y1) + b * y1 - 10; b * (y1 * y1) + y2 - 12; b + y3 - 8]%R.
Proof. reflexivity. Qed.

(** X11: in exact arithmetic all three residuals of [eqns] vanish exactly
    at the solutions of the system [a*y1^2 + b*y1 = 10], [b*y1^2 + y2 = 12],
    [b + y3 = 8]. *)
Theorem eqns_zero_iff (a b y1 y2 y3 : R) :
  eqns a b [y1; y2; y3] = Some [0; 0; 0]%R <->
  (a * y1 ^ 2 + b * y1 = 10)%R /\ (b * y1 ^ 2 + y2 = 12)%R /\ (b + y3 = 8)%R.
Proof.
  rewrite eqns_R. split.
  - intros [= H1 H2 H3]. repeat split; lra.
  - intros (H1 & H2 & H3). do 2 f_equal; [|f_equal; [|f_equal]]; lra.
Qed.

(** X12: with the constants of the notebook, [a = 1] and [b = 2], the
    residuals vanish at exactly two points:
    [(sqrt 11 - 1, 4 sqrt 11 - 12, 6)], the one the notebook prints, and
    [(- sqrt 11 - 1, - 4 sqrt 11 - 12, 6)]. *)
Theorem eqns_two_roots (y1 y2 y3 : R) :
  eqns 1%R 2%R [y1; y2; y3] = Some [0; 0; 0]%R <->
  (y1 = R_sqrt.sqrt 11 - 1 /\ y2 = 4 * R_sqrt.sqrt 11 - 12 /\ y3 = 6)%R \/
  (y1 = - R_sqrt.sqrt 11 - 1 /\ y2 = - 4 * R_sqrt.sqrt 11 - 12 /\ y3 = 6)%R.
Proof.
  rewrite eqns_R.
  assert (Hsq : (R_sqrt.sqrt 11 * R_sqrt.sqrt 11 = 11)%R)
    by (apply sqrt_sqrt; lra).
  split.
  - intros [= H1 H2 H3].
    assert (Hfac : ((y1 + 1 - R_sqrt.sqrt 11) * (y1 + 1 + R_sqrt.sqrt 11) = 0)%R)
      by nra.
    apply Rmult_integral in Hfac as [Hy|Hy]; [left | right];
      (split; [lra|]); (split; [nra | lra]).
  - intros [(-> & -> & ->)|(-> & -> & ->)];
      (do 2 f_equal; [|f_equal; [|f_equal]]); nra.
Qed.

(** X13: the three values of "Check solution" are the first three
    residuals that [eqns] returns at the same vector, and the check raises
    [IndexError] exactly when [eqns] does. *)
Theorem check_solution_is_eqns {F : Type} `{Arith F} (a b : F) (soln : list F) :
  check_solution a b soln = eqns a b soln ≫= first3.
Proof.
  destruct soln as [|y1 [|y2 [|y3 soln]]]; reflexivity.
Qed.

(** ** The parity line *)

Lemma py_min_None {F} `{Less F} (l : list F) : py_min l = None <-> l = [].
Proof. by destruct l. Qed.

Lemma py_max_None {F} `{Less F} (l : list F) : py_max l = None <-> l = [].
Proof. by destruct l. Qed.

(** X14: the parity cell raises ([ValueError], from [min] of an empty
    sequence) exactly when there is no observation or no prediction; when
    it returns, [x_parity] and [y_parity] are the same list of two
    numbers. *)
Theorem parity_returns_iff {F : Type} `{Less F} (rate_exp rate_predict : list F) :
  (parity rate_exp rate_predict = None <->
   rate_exp = [] \/ rate_predict = []) /\
  (forall x_parity y_parity,
     parity rate_exp rate_predict = Some (x_parity, y_parity) ->
     x_parity = y_parity /\ length x_parity = 2%nat).
Proof.
  unfold parity, parity_line. split.
  - destruct rate_exp as [|e re], rate_predict as [|p rp]; simpl;
      split; try done; try (by left); try (by right); by intros [|].
  - intros xp yp Hrun.
    destruct rate_exp as [|e re], rate_predict as [|p rp]; simpl in Hrun;
      try done.
    by injection Hrun as <- <-.
Qed.

(** X15: the parity cell run on what the summary loop returns raises
    nothing, unless there is no observation at all. *)
Theorem parity_after_summary {F : Type} `{Arith F} `{Less F}
    (CA CB CC rate popt preds : list F) (ssr : F) :
  residual_summary CA CB CC rate popt = Some (preds, ssr) ->
  rate <> [] ->
  is_Some (parity rate preds).
Proof.
  intros Hrun Hne.
  destruct (residual_summary_inv _ _ _ _ _ _ _ Hrun) as (_ & Hlen & _).
  destruct rate as [|e re]; [done|].
  destruct preds as [|p rp]; [done|].
  unfold parity, parity_line. simpl. by eexists.
Qed.

Lemma parity_after_summary_witness :
  residual_summary [1; 1]%float [2; 2]%float [3; 3]%float [16; 19]%float
    [10; 0; 0; 0; 1]%float = Some ([17; 17]%float, 5%float) /\
  is_Some (parity [16; 19]%float [17; 17]%float).
Proof.
  assert (Hrun :
    residual_summary [1; 1]%float [2; 2]%float [3; 3]%float [16; 19]%float
      [10; 0; 0; 0; 1]%float = Some ([17; 17]%float, 5%float)) by reflexivity.
  split; [exact Hrun|].
  exact (parity_after_summary (F := float) _ _ _ _ _ _ _ Hrun
           ltac:(discriminate)).
Defined.

(** ** Binary64: the order of the numbers that are not NaN *)

Lemma SFcompare_key a b :
  SFnotnan a = true -> SFnotnan b = true ->
  exists c, SFcompare a b = Some c /\
    (c = Lt <-> lexlt (SFkey a) (SFkey b)) /\
    (c = Gt <-> lexlt (SFkey b) (SFkey a)).
Proof.
  intros Ha Hb.
  destruct a as [sa|sa| |sa ma ea], b as [sb|sb| |sb mb eb]; try done;
    simpl; try (destruct sa); try (destruct sb);
    try (eexists; split; [reflexivity|]; unfold lexlt; simpl;
         split; split; (try discriminate); intros; (try lia); done).
  - destruct (Z.compare_spec ea eb) as [He|He|He];
      [change (Pos.compare_cont Eq ma mb) with (Pos.compare ma mb);
       destruct (Pos.compare_spec ma mb) as [Hm|Hm|Hm]| |];
      (eexists; split; [reflexivity|]; unfold lexlt; simpl;
       split; split; (try discriminate); intros; (try lia); done).
  - destruct (Z.compare_spec ea eb) as [He|He|He];
      [change (Pos.compare_cont Eq ma mb) with (Pos.compare ma mb);
       destruct (Pos.compare_spec ma mb) as [Hm|Hm|Hm]| |];
      (eexists; split; [reflexivity|]; unfold lexlt; simpl;
       split; split; (try discriminate); intros; (try lia); done).
Qed.

Lemma is_nan_spec x : PrimFloat.is_nan x = negb (SFnotnan (Prim2SF x)).
Proof.
  unfold PrimFloat.is_nan. rewrite FloatAxioms.eqb_spec.
  destruct (Prim2SF x) as [s|s| |s m e]; try (by destruct s); [done|].
  unfold SFeqb. by rewrite SFcompare_finite_refl.
Qed.

Lemma notnan_spec x : PrimFloat.is_nan x = false <-> SFnotnan (Prim2SF x) = true.
Proof. rewrite is_nan_spec. by destruct (SFnotnan _). Qed.

Lemma ltb_key x y :
  PrimFloat.is_nan x = false -> PrimFloat.is_nan y = false ->
  (x <? y)%float = true <-> lexlt (fkey x) (fkey y).
Proof.
  rewrite !notnan_spec, ltb_spec. intros Hx Hy. unfold SFltb, fkey.
  destruct (SFcompare_key _ _ Hx Hy) as (c & -> & HLt & _).
  rewrite <- HLt. by destruct c.
Qed.

Lemma leb_key x y :
  PrimFloat.is_nan x = false -> PrimFloat.is_nan y = false ->
  (x <=? y)%float = true <-> ~ lexlt (fkey y) (fkey x).
Proof.
  rewrite !notnan_spec, leb_spec. intros Hx Hy. unfold SFleb, fkey.
  destruct (SFcompare_key _ _ Hx Hy) as (c & -> & _ & HGt).
  rewrite <- HGt. by destruct c.
Qed.

(** The comparisons behind one step of [min] and of [max]. *)
Lemma lexlt_irrefl (k : Z * Z * Z) : ~ lexlt k k.
Proof. destruct k as [[a b] c]. unfold lexlt. lia. Qed.

Lemma lexlt_le_trans_l (k1 k2 k3 : Z * Z * Z) :
  lexlt k1 k2 -> ~ lexlt k1 k3 -> ~ lexlt k2 k3.
Proof.
  destruct k1 as [[a1 b1] c1], k2 as [[a2 b2] c2], k3 as [[a3 b3] c3].
  unfold lexlt. lia.
Qed.

Lemma lexlt_le_trans_r (k1 k2 k3 : Z * Z * Z) :
  lexlt k1 k2 -> ~ lexlt k3 k2 -> ~ lexlt k3 k1.
Proof.
  destruct k1 as [[a1 b1] c1], k2 as [[a2 b2] c2], k3 as [[a3 b3] c3].
  unfold lexlt. lia.
Qed.

Lemma lexle_trans (k1 k2 k3 : Z * Z * Z) :
  ~ lexlt k1 k2 -> ~ lexlt k2 k3 -> ~ lexlt k1 k3.
Proof.
  destruct k1 as [[a1 b1] c1], k2 as [[a2 b2] c2], k3 as [[a3 b3] c3].
  unfold lexlt. lia.
Qed.

Lemma leb_refl (m : float) :
  PrimFloat.is_nan m = false -> (m <=? m)%float = true.
Proof.
  intros Hm. apply (proj2 (leb_key m m Hm Hm)).
  apply lexlt_irrefl.
Qed.

Lemma py_min_cons_float (l : list float) (m : float) :
  (forall v, v ∈ m :: l -> PrimFloat.is_nan v = false) ->
  exists r, py_min (m :: l) = Some r /\
    (r <=? m)%float = true /\
    (forall v, v ∈ l -> (r <=? v)%float = true) /\ r ∈ m :: l.
Proof.
  revert m. induction l as [|x l IH]; intros m Hnan.
  - exists m. split; [done|].
    assert (Hm : PrimFloat.is_nan m = false) by (apply Hnan; left).
    split; [by apply leb_refl|].
    split; [|left]. intros v Hv. by apply elem_of_nil in Hv.
  - change (py_min (m :: x :: l))
      with (py_min ((if flt x m then x else m) :: l)).
    assert (Hm : PrimFloat.is_nan m = false) by (apply Hnan; left).
    assert (Hx : PrimFloat.is_nan x = false) by (apply Hnan; right; left).
    assert (Hl : forall v, v ∈ l -> PrimFloat.is_nan v = false)
      by (intros v Hv; apply Hnan; right; by right).
    unfold flt, float_less.
    destruct (x <? m)%float eqn:Hlt.
    + destruct (IH x) as (r & Hr & Hle & Hall & Hin).
      { intros v Hv. apply elem_of_cons in Hv as [->|Hv]; [done | by apply Hl]. }
      assert (Hrn : PrimFloat.is_nan r = false).
      { apply elem_of_cons in Hin as [->|Hin]; [done | by apply Hl]. }
      exists r. split; [exact Hr|]. split; [|split].
      * apply leb_key; [done..|]. apply ltb_key in Hlt; [|done..].
        apply leb_key in Hle; [|done..].
        by apply (lexlt_le_trans_l (fkey x) (fkey m) (fkey r)).
      * intros v Hv. apply elem_of_cons in Hv as [->|Hv]; [done | by apply Hall].
      * by right.
    + destruct (IH m) as (r & Hr & Hle & Hall & Hin).
      { intros v Hv. apply elem_of_cons in Hv as [->|Hv]; [done | by apply Hl]. }
      assert (Hrn : PrimFloat.is_nan r = false).
      { apply elem_of_cons in Hin as [->|Hin]; [done | by apply Hl]. }
      exists r. split; [exact Hr|]. split; [done|split].
      * intros v Hv. apply elem_of_cons in Hv as [->|Hv]; [|by apply Hall].
        apply leb_key; [done..|]. apply leb_key in Hle; [|done..].
        assert (Hge : ~ lexlt (fkey x) (fkey m)).
        { intros Hk. apply ltb_key in Hk; [|done..]. by rewrite Hk in Hlt. }
        by apply (lexle_trans (fkey x) (fkey m) (fkey r)).
      * apply elem_of_cons in Hin as [->|Hin]; [left | right; by right].
Qed.

Lemma py_max_cons_float (l : list float) (m : float) :
  (forall v, v ∈ m :: l -> PrimFloat.is_nan v = false) ->
  exists r, py_max (m :: l) = Some r /\
    (m <=? r)%float = true /\
    (forall v, v ∈ l -> (v <=? r)%float = true) /\ r ∈ m :: l.
Proof.
  revert m. induction l as [|x l IH]; intros m Hnan.
  - exists m. split; [done|].
    assert (Hm : PrimFloat.is_nan m = false) by (apply Hnan; left).
    split; [by apply leb_refl|].
    split; [|left]. intros v Hv. by apply elem_of_nil in Hv.
  - change (py_max (m :: x :: l))
      with (py_max ((if flt m x then x else m) :: l)).
    assert (Hm : PrimFloat.is_nan m = false) by (apply Hnan; left).
    assert (Hx : PrimFloat.is_nan x = false) by (apply Hnan; right; left).
    assert (Hl : forall v, v ∈ l -> PrimFloat.is_nan v = false)
      by (intros v Hv; apply Hnan; right; by right).
    unfold flt, float_less.
    destruct (m <? x)%float eqn:Hlt.
    + destruct (IH x) as (r & Hr & Hle & Hall & Hin).
      { intros v Hv. apply elem_of_cons in Hv as [->|Hv]; [done | by apply Hl]. }
      assert (Hrn : PrimFloat.is_nan r = false).
      { apply elem_of_cons in Hin as [->|Hin]; [done | by apply Hl]. }
      exists r. split; [exact Hr|]. split; [|split].
      * apply leb_key; [done..|]. apply ltb_key in Hlt; [|done..].
        apply leb_key in Hle; [|done..].
        by apply (lexlt_le_trans_r (fkey m) (fkey x) (fkey r)).
      * intros v Hv. apply elem_of_cons in Hv as [->|Hv]; [done | by apply Hall].
      * by right.
    + destruct (IH m) as (r & Hr & Hle & Hall & Hin).
      { intros v Hv. apply elem_of_cons in Hv as [->|Hv]; [done | by apply Hl]. }
      assert (Hrn : PrimFloat.is_nan r = false).
      { apply elem_of_cons in Hin as [->|Hin]; [done | by apply Hl]. }
      exists r. split; [exact Hr|]. split; [done|split].
      * intros v Hv. apply elem_of_cons in Hv as [->|Hv]; [|by apply Hall].
        apply leb_key; [done..|]. apply leb_key in Hle; [|done..].
        assert (Hge : ~ lexlt (fkey m) (fkey x)).
        { intros Hk. apply ltb_key in Hk; [|done..]. by rewrite Hk in Hlt. }
        by apply (lexle_trans (fkey r) (fkey m) (fkey x)).
      * apply elem_of_cons in Hin as [->|Hin]; [left | right; by right].
Qed.

Lemma py_min_float (l : list float) (r : float) :
  (forall v, v ∈ l -> PrimFloat.is_nan v = false) ->
  py_min l = Some r -> r ∈ l /\ forall v, v ∈ l -> (r <=? v)%float = true.
Proof.
  destruct l as [|x l]; [done|]. intros Hnan Hr.
  destruct (py_min_cons_float l x Hnan) as (r' & Hr' & Hle & Hall & Hin).
  rewrite Hr in Hr'. injection Hr' as <-. split; [done|].
  intros v Hv. apply elem_of_cons in Hv as [->|Hv]; [done | by apply Hall].
Qed.

Lemma py_max_float (l : list float) (r : float) :
  (forall v, v ∈ l -> PrimFloat.is_nan v = false) ->
  py_max l = Some r -> r ∈ l /\ forall v, v ∈ l -> (v <=? r)%float = true.
Proof.
  destruct l as [|x l]; [done|]. intros Hnan Hr.
  destruct (py_max_cons_float l x Hnan) as (r' & Hr' & Hle & Hall & Hin).
  rewrite Hr in Hr'. injection Hr' as <-. split; [done|].
  intros v Hv. apply elem_of_cons in Hv as [->|Hv]; [done | by apply Hall].
Qed.

(** X16: in binary64, when no observation and no prediction is NaN, the
    two ends of the parity line are values that occur among them, and
    every observation and every prediction lies between the two ends,
    infinite values included.  With a NaN among the values the line can
    leave points outside. *)
Theorem parity_spans (rate_exp rate_predict x_parity y_parity : list float) :
  parity rate_exp rate_predict = Some (x_parity, y_parity) ->
  (forall v, v ∈ rate_exp ++ rate_predict -> PrimFloat.is_nan v = false) ->
  exists lo hi,
    x_parity = [lo; hi] /\ y_parity = [lo; hi] /\
    lo ∈ rate_exp ++ rate_predict /\ hi ∈ rate_exp ++ rate_predict /\
    forall v, v ∈ rate_exp ++ rate_predict ->
      (lo <=? v)%float = true /\ (v <=? hi)%float = true.
Proof.
  unfold parity, parity_line. intros Hrun Hnan.
  assert (Hne : forall v, v ∈ rate_exp -> PrimFloat.is_nan v = false)
    by (intros v Hv; apply Hnan, elem_of_app; by left).
  assert (Hnp : forall v, v ∈ rate_predict -> PrimFloat.is_nan v = false)
    by (intros v Hv; apply Hnan, elem_of_app; by right).
  destruct (py_min rate_exp) as [m1|] eqn:Hm1; simpl in Hrun; [|done].
  destruct (py_min rate_predict) as [m2|] eqn:Hm2; simpl in Hrun; [|done].
  destruct (py_max rate_exp) as [M1|] eqn:HM1; simpl in Hrun; [|done].
  destruct (py_max rate_predict) as [M2|] eqn:HM2; simpl in Hrun; [|done].
  injection Hrun as <- <-.
  apply py_min_float in Hm1 as [Hm1 Hlo1]; [|done].
  apply py_min_float in Hm2 as [Hm2 Hlo2]; [|done].
  apply py_max_float in HM1 as [HM1 Hhi1]; [|done].
  apply py_max_float in HM2 as [HM2 Hhi2]; [|done].
  destruct (py_min_cons_float [m2] m1) as (lo & Hlo & Hlo_m1 & Hlo_m2 & Hlo_in).
  { intros v Hv. apply elem_of_cons in Hv as [->|Hv]; [by apply Hne|].
    apply list_elem_of_singleton in Hv as ->. by apply Hnp. }
  destruct (py_max_cons_float [M2] M1) as (hi & Hhi & Hhi_M1 & Hhi_M2 & Hhi_in).
  { intros v Hv. apply elem_of_cons in Hv as [->|Hv]; [by apply Hne|].
    apply list_elem_of_singleton in Hv as ->. by apply Hnp. }
  injection Hlo as Hlo. injection Hhi as Hhi. rewrite Hlo, Hhi.
  specialize (Hlo_m2 m2 ltac:(left)). specialize (Hhi_M2 M2 ltac:(left)).
  assert (Hlo_nan : PrimFloat.is_nan lo = false).
  { apply elem_of_cons in Hlo_in as [->|Hin]; [by apply Hne|].
    apply list_elem_of_singleton in Hin as ->. by apply Hnp. }
  assert (Hhi_nan : PrimFloat.is_nan hi = false).
  { apply elem_of_cons in Hhi_in as [->|Hin]; [by apply Hne|].
    apply list_elem_of_singleton in Hin as ->. by apply Hnp. }
  exists lo, hi. split; [done|]. split; [done|].
  split; [|split].
  - apply elem_of_app.
    apply elem_of_cons in Hlo_in as [->|Hin]; [by left|].
    apply list_elem_of_singleton in Hin as ->. by right.
  - apply elem_of_app.
    apply elem_of_cons in Hhi_in as [->|Hin]; [by left|].
    apply list_elem_of_singleton in Hin as ->. by right.
  - intros v Hv. pose proof (Hnan v Hv) as Hvn.
    apply elem_of_app in Hv as [Hv|Hv].
    + specialize (Hlo1 v Hv). specialize (Hhi1 v Hv).
      pose proof (Hne m1 Hm1) as Hn1. pose proof (Hne M1 HM1) as HN1.
      apply leb_key in Hlo1, Hhi1, Hlo_m1, Hhi_M1; try done.
      split; (apply leb_key; [done..|]).
      * by apply (lexle_trans (fkey v) (fkey m1) (fkey lo)).
      * by apply (lexle_trans (fkey hi) (fkey M1) (fkey v)).
    + specialize (Hlo2 v Hv). specialize (Hhi2 v Hv).
      pose proof (Hnp m2 Hm2) as Hn2. pose proof (Hnp M2 HM2) as HN2.
      apply leb_key in Hlo2, Hhi2, Hlo_m2, Hhi_M2; try done.
      split; (apply leb_key; [done..|]).
      * by apply (lexle_trans (fkey v) (fkey m2) (fkey lo)).
      * by apply (lexle_trans (fkey hi) (fkey M2) (fkey v)).
Qed.

Lemma parity_spans_witness :
  parity [3; 1; 2.5]%float [2; 0.5; infinity]%float
  = Some ([0.5; infinity]%float, [0.5; infinity]%float) /\
  exists lo hi,
    [0.5; infinity]%float = [lo; hi] /\ [0.5; infinity]%float = [lo; hi] /\
    lo ∈ [3; 1; 2.5]%float ++ [2; 0.5; infinity]%float /\
    hi ∈ [3; 1; 2.5]%float ++ [2; 0.5; infinity]%float /\
    forall v, v ∈ [3; 1; 2.5]%float ++ [2; 0.5; infinity]%float ->
      (lo <=? v)%float = true /\ (v <=? hi)%float = true.
Proof.
  assert (Hrun : parity [3; 1; 2.5]%float [2; 0.5; infinity]%float
                 = Some ([0.5; infinity]%float, [0.5; infinity]%float))
    by reflexivity.
  split; [exact Hrun|].
  apply (parity_spans _ _ _ _ Hrun).
  intros v Hv. simpl in Hv.
  repeat (apply elem_of_cons in Hv as [->|Hv]; [reflexivity|]).
  by apply elem_of_nil in Hv.
Defined.

(** With a NaN in front of the predictions, [min] and [max] of the
    predictions are NaN, the outer [min] and [max] drop it, and the line
    spans the observations only. *)
Example parity_nan :
  parity [1; 2]%float [nan; 0.5]%float = Some ([1; 2]%float, [1; 2]%float).
Proof. reflexivity. Qed.

(** ** Binary64: a negative variance *)

Lemma sqrt_negative (x : float) :
  (x <? 0)%float = true -> nonfinite (PrimFloat.sqrt x).
Proof.
  rewrite nonfinite_spec, sqrt_spec, ltb_spec.
  change (Prim2SF 0%float) with (S754_zero false).
  destruct (Prim2SF x) as [s|s| |s m e]; try done; by destruct s.
Qed.

(** X17: in binary64, a negative entry on the diagonal of [pcov] makes
    [var**0.5] NaN, and the half-width reported for that parameter is not
    a finite number; nothing is raised. *)
Theorem confidence_negative_variance (tdist_ppf : float -> Z -> float)
    (alpha : float) (N P : nat) (guess popt : list float)
    (pcov : list (list float)) (i : nat) (var : float) :
  length guess = P -> length popt = P -> square P pcov ->
  P = 5%nat -> (P <= N)%nat ->
  np_diag pcov !! i = Some var -> (var <? 0)%float = true ->
  exists table h,
    confidence tdist_ppf alpha N guess popt pcov = Some table /\
    HalfWidth table !! i = Some h /\ PrimFloat.is_finite h = false.
Proof.
  intros Hg Hp Hsq HP5 HPN Hvi Hneg.
  destruct (confidence_rows tdist_ppf alpha N P guess popt pcov)
    as (table & Hrun & _ & Hrows); try done.
  destruct (lookup_lt_is_Some_2 popt i) as [p Hpi].
  { apply lookup_lt_Some in Hvi.
    rewrite (np_diag_square P pcov Hsq) in Hvi. lia. }
  destruct (Hrows i p var Hpi Hvi) as [Hhalf _].
  exists table. eexists. split; [done|]. split; [exact Hhalf|].
  apply sqrt_negative in Hneg.
  change (nonfinite
    ((p + PrimFloat.sqrt var
          * tdist_ppf (float_lit 1 - alpha / float_lit 2) (dof N P)
      - (p - PrimFloat.sqrt var
             * tdist_ppf (float_lit 1 - alpha / float_lit 2) (dof N P)))
     / float_lit 2)%float).
  eauto 6 with nonfinite.
Qed.

Lemma confidence_negative_variance_witness :
  exists table h,
    confidence (fun _ _ => 2%float) alpha_095 13 guess guess
      (replicate 5 (replicate 5 (-1)%float)) = Some table /\
    HalfWidth table !! 0%nat = Some h /\ PrimFloat.is_finite h = false.
Proof.
  assert (Hsq : square 5 (replicate 5 (replicate 5 (-1)%float))).
  { split; [reflexivity | repeat constructor]. }
  assert (Hle : (5 <= 13)%nat) by lia.
  exact (confidence_negative_variance (fun _ _ => 2%float) alpha_095 13 5
           guess guess (replicate 5 (replicate 5 (-1)%float)) 0 (-1)%float
           eq_refl eq_refl Hsq eq_refl Hle eq_refl eq_refl).
Defined.
